(** * WaveformVis: resampling and caching of an audio waveform layer

    A shallow embedding of the [WaveformVis] layer class
    (constructor, [getSamplesPerPixel], [onload], [initWorker],
    [downSample], [resamplerResponse], [setDownSample], [xZoom], [draw]),
    followed by [BreakpointBehavior.edit], the stores of [Timeline] and
    the mouse handlers of [ContextEditionState].

    JavaScript numbers are read as exact rationals ([Q]): the properties
    studied here are about control flow and about which expression is
    computed, not about rounding.  Methods run in a small monad that
    threads the instance ([this]), appends the observable effects to a
    trace and records whether the call returned or threw; as in
    JavaScript, what was mutated before a [throw] stays mutated. *)

From Stdlib Require Import ZArith QArith Qabs Qround Qminmax.
From Stdlib Require Import List String Bool Lia Sorted.
Import ListNotations.

Local Open Scope Q_scope.

(** ** Numbers *)

(** [a < b] on numbers, as a boolean. *)
Definition Qltb (a b : Q) : bool :=
  (Qnum a * QDen b <? Qnum b * QDen a)%Z.

(** [Math.round]: the nearest integer, halves going up. *)
Definition Math_round (x : Q) : Z := Qfloor (x + (1 # 2)).

(** The values taken by [k] in [for (k = 0; k < bound; k++)]. *)
Definition loop_indices (bound : Q) : list Z :=
  map Z.of_nat (seq 0 (Z.to_nat (Qceiling bound))).

(** ** Data *)

(** The raw samples ([this.data()], an ArrayBuffer or a typed array). *)
Definition SampleBuffer := list Q.

(** One (min, max) pair per pixel column. *)
Definition DownsampledView := list (Q * Q).

(** The signature of [require('./lib/min-max')]:
    [minMax(buffer, extractAtTimes, sampleRate, windowSize, defaultValue)]. *)
Definition Extractor :=
  SampleBuffer -> list Q -> Q -> Q -> Q -> DownsampledView.

(** ** The extractor *)

Module MinMaxExtractor.

(** Modelled from the spec: [lib/min-max.js] is not among the sources.
    The sample at index [j], when [j] is inside the buffer. *)
Definition sample_at (buffer : SampleBuffer) (j : Z) : option Q :=
  if ((j <? 0) || (Z.of_nat (List.length buffer) <=? j))%Z then None
  else nth_error buffer (Z.to_nat j).

(** Modelled from the spec: [lib/min-max.js] is not among the sources.
    The integer indices of the half-open range [[i, i + windowSize)]. *)
Definition window_indices (i : Z) (windowSize : Q) : list Z :=
  map (fun k => (i + k)%Z) (loop_indices windowSize).

(** Modelled from the spec: [lib/min-max.js] is not among the sources.
    The samples of the buffer met while scanning the indices [js]. *)
Fixpoint valid_samples (buffer : SampleBuffer) (js : list Z) : list Q :=
  match js with
  | [] => []
  | j :: js' =>
      match sample_at buffer j with
      | Some x => x :: valid_samples buffer js'
      | None => valid_samples buffer js'
      end
  end.

(** Modelled from the spec: [lib/min-max.js] is not among the sources.
    One column: the sample index is [round(t * sampleRate)], the pair is
    the (min, max) of the valid samples of the window, and
    (defaultValue, defaultValue) when the window has none. *)
Definition column (buffer : SampleBuffer) (sampleRate windowSize defaultValue t : Q)
  : Q * Q :=
  let i := Math_round (t * sampleRate) in
  match valid_samples buffer (window_indices i windowSize) with
  | [] => (defaultValue, defaultValue)
  | x :: xs => (fold_left Qmin xs x, fold_left Qmax xs x)
  end.

(** Modelled from the spec: [lib/min-max.js] is not among the sources.
    [extract(buffer, extractAtTimes, sampleRate, windowSize, defaultValue)]:
    one column per requested time instant, in order. *)
Definition extract : Extractor :=
  fun buffer extractAtTimes sampleRate windowSize defaultValue =>
    map (column buffer sampleRate windowSize defaultValue) extractAtTimes.

End MinMaxExtractor.

(** ** Messages *)

(** What the layer posts to the resampler worker. *)
Inductive Request : Type :=
| Initialize (buffer : SampleBuffer) (minMax : Extractor)
| DownSampleRequest (time : Z) (extractAtTimes : list Q)
    (sampleRate windowSize defaultValue : Q).

(** [message.data] of what the worker posts back.  [msg] and
    [downSampledView] may be missing from the object. *)
Record Response := {
  cmd : string;
  time : Z;
  downSampledView : option DownsampledView;
  msg : option string
}.

(** ** The instance *)

(** A d3 linear scale, by its two end points on each side. *)
Record LinearScale := {
  domain : Q * Q;
  range : Q * Q
}.

(** [scale(x)] of a d3 linear scale; a degenerate domain maps to [range[0]]. *)
Definition scale_apply (s : LinearScale) (x : Q) : Q :=
  fst (range s)
  + (x - fst (domain s)) / (snd (domain s) - fst (domain s))
    * (snd (range s) - fst (range s)).

(** [scale.invert(y)]. *)
Definition scale_invert (s : LinearScale) (y : Q) : Q :=
  fst (domain s)
  + (y - fst (range s)) / (snd (range s) - fst (range s))
    * (snd (domain s) - fst (domain s)).

(** [this.base]: the timeline the layer is loaded into. *)
Record Base := {
  xScale : LinearScale;
  width : Q
}.

(** [this.params()], with the keys the constructor sets (type and id apart). *)
Record Params := {
  renderingStrategy : string;
  yDomain : Q * Q;
  triggerUpdateZoomDelta : Q;
  triggerUpdateDragDelta : Q;
  useWorker : bool
}.

Record WaveformVis := {
  params : Params;
  color : string;
  sampleRate : Q;
  duration : Q;
  cache : option DownsampledView;
  data : SampleBuffer;
  base : Base;
  yScale : LinearScale;
  xxScale : LinearScale;
  currentZoomFactor : Q;
  currentDragDeltaX : Q;
  resampler : bool;                      (* has [new Worker] been stored *)
  currentWorkerCallTime : option Z;      (* [__currentWorkerCallTime] *)
  isProcessing : option bool;            (* [__isProcessing] *)
  clock : Z                              (* what [new Date().getTime()] reads *)
}.

Definition set_cache (v : option DownsampledView) (s : WaveformVis) : WaveformVis :=
  {| params := params s; color := color s; sampleRate := sampleRate s;
     duration := duration s; cache := v; data := data s; base := base s;
     yScale := yScale s; xxScale := xxScale s;
     currentZoomFactor := currentZoomFactor s;
     currentDragDeltaX := currentDragDeltaX s; resampler := resampler s;
     currentWorkerCallTime := currentWorkerCallTime s;
     isProcessing := isProcessing s; clock := clock s |}.

Definition set_xxScale (x : LinearScale) (s : WaveformVis) : WaveformVis :=
  {| params := params s; color := color s; sampleRate := sampleRate s;
     duration := duration s; cache := cache s; data := data s; base := base s;
     yScale := yScale s; xxScale := x;
     currentZoomFactor := currentZoomFactor s;
     currentDragDeltaX := currentDragDeltaX s; resampler := resampler s;
     currentWorkerCallTime := currentWorkerCallTime s;
     isProcessing := isProcessing s; clock := clock s |}.

Definition set_currentZoomFactor (z : Q) (s : WaveformVis) : WaveformVis :=
  {| params := params s; color := color s; sampleRate := sampleRate s;
     duration := duration s; cache := cache s; data := data s; base := base s;
     yScale := yScale s; xxScale := xxScale s;
     currentZoomFactor := z;
     currentDragDeltaX := currentDragDeltaX s; resampler := resampler s;
     currentWorkerCallTime := currentWorkerCallTime s;
     isProcessing := isProcessing s; clock := clock s |}.

Definition set_currentDragDeltaX (d : Q) (s : WaveformVis) : WaveformVis :=
  {| params := params s; color := color s; sampleRate := sampleRate s;
     duration := duration s; cache := cache s; data := data s; base := base s;
     yScale := yScale s; xxScale := xxScale s;
     currentZoomFactor := currentZoomFactor s;
     currentDragDeltaX := d; resampler := resampler s;
     currentWorkerCallTime := currentWorkerCallTime s;
     isProcessing := isProcessing s; clock := clock s |}.

Definition set_resampler (b : bool) (s : WaveformVis) : WaveformVis :=
  {| params := params s; color := color s; sampleRate := sampleRate s;
     duration := duration s; cache := cache s; data := data s; base := base s;
     yScale := yScale s; xxScale := xxScale s;
     currentZoomFactor := currentZoomFactor s;
     currentDragDeltaX := currentDragDeltaX s; resampler := b;
     currentWorkerCallTime := currentWorkerCallTime s;
     isProcessing := isProcessing s; clock := clock s |}.

Definition set_currentWorkerCallTime (t : option Z) (s : WaveformVis) : WaveformVis :=
  {| params := params s; color := color s; sampleRate := sampleRate s;
     duration := duration s; cache := cache s; data := data s; base := base s;
     yScale := yScale s; xxScale := xxScale s;
     currentZoomFactor := currentZoomFactor s;
     currentDragDeltaX := currentDragDeltaX s; resampler := resampler s;
     currentWorkerCallTime := t;
     isProcessing := isProcessing s; clock := clock s |}.

Definition set_isProcessing (p : option bool) (s : WaveformVis) : WaveformVis :=
  {| params := params s; color := color s; sampleRate := sampleRate s;
     duration := duration s; cache := cache s; data := data s; base := base s;
     yScale := yScale s; xxScale := xxScale s;
     currentZoomFactor := currentZoomFactor s;
     currentDragDeltaX := currentDragDeltaX s; resampler := resampler s;
     currentWorkerCallTime := currentWorkerCallTime s;
     isProcessing := p; clock := clock s |}.

(** The timeline moving its visible time range: [base.xScale.domain(d)],
    done by the timeline, outside the layer. *)
Definition set_base_domain (d : Q * Q) (s : WaveformVis) : WaveformVis :=
  {| params := params s; color := color s; sampleRate := sampleRate s;
     duration := duration s; cache := cache s; data := data s;
     base := {| xScale := {| domain := d; range := range (xScale (base s)) |};
                width := width (base s) |};
     yScale := yScale s; xxScale := xxScale s;
     currentZoomFactor := currentZoomFactor s;
     currentDragDeltaX := currentDragDeltaX s; resampler := resampler s;
     currentWorkerCallTime := currentWorkerCallTime s;
     isProcessing := isProcessing s; clock := clock s |}.

(** The [sampleRate] accessor called with a value. *)
Definition set_sampleRate (r : Q) (s : WaveformVis) : WaveformVis :=
  {| params := params s; color := color s; sampleRate := r;
     duration := duration s; cache := cache s; data := data s; base := base s;
     yScale := yScale s; xxScale := xxScale s;
     currentZoomFactor := currentZoomFactor s;
     currentDragDeltaX := currentDragDeltaX s; resampler := resampler s;
     currentWorkerCallTime := currentWorkerCallTime s;
     isProcessing := isProcessing s; clock := clock s |}.

(** The [useWorker] parameter set by the user of the layer. *)
Definition set_useWorker (b : bool) (s : WaveformVis) : WaveformVis :=
  {| params := {| renderingStrategy := renderingStrategy (params s);
                  yDomain := yDomain (params s);
                  triggerUpdateZoomDelta := triggerUpdateZoomDelta (params s);
                  triggerUpdateDragDelta := triggerUpdateDragDelta (params s);
                  useWorker := b |};
     color := color s; sampleRate := sampleRate s;
     duration := duration s; cache := cache s; data := data s; base := base s;
     yScale := yScale s; xxScale := xxScale s;
     currentZoomFactor := currentZoomFactor s;
     currentDragDeltaX := currentDragDeltaX s; resampler := resampler s;
     currentWorkerCallTime := currentWorkerCallTime s;
     isProcessing := isProcessing s; clock := clock s |}.

(** ** Effects *)

Inductive Event : Type :=
| ConsoleTime (label : string)      (* [console.time(label)] *)
| PostMessage (m : Request)         (* [this.resampler.postMessage(m)] *)
| Render (data : DownsampledView).  (* [this._draw(data)] *)

Inductive Exn : Type :=
| Error (message : string)          (* [throw new Error(message)] *)
| TypeError (property : string).    (* [undefined.property] was read *)

Inductive Completion (A : Type) : Type :=
| Normal (a : A)
| Throw (e : Exn).
Arguments Normal {A} a.
Arguments Throw {A} e.

Record Outcome (A : Type) := {
  after : WaveformVis;
  trace : list Event;
  completion : Completion A
}.
Arguments after {A} o.
Arguments trace {A} o.
Arguments completion {A} o.

Definition M (A : Type) : Type := WaveformVis -> Outcome A.

Definition ret {A} (a : A) : M A :=
  fun s => {| after := s; trace := []; completion := Normal a |}.

Definition bind {A B} (m : M A) (k : A -> M B) : M B :=
  fun s =>
    let o := m s in
    match completion o with
    | Normal a =>
        let o' := k a (after o) in
        {| after := after o'; trace := trace o ++ trace o';
           completion := completion o' |}
    | Throw e => {| after := after o; trace := trace o; completion := Throw e |}
    end.

Definition this : M WaveformVis :=
  fun s => {| after := s; trace := []; completion := Normal s |}.

Definition assign (f : WaveformVis -> WaveformVis) : M unit :=
  fun s => {| after := f s; trace := []; completion := Normal tt |}.

Definition emit (e : Event) : M unit :=
  fun s => {| after := s; trace := [e]; completion := Normal tt |}.

Definition throw {A} (e : Exn) : M A :=
  fun s => {| after := s; trace := []; completion := Throw e |}.

Declare Scope js_scope.
Delimit Scope js_scope with js.
Notation "x <- m ;; k" := (bind m (fun x => k))
  (at level 61, m at next level, right associativity) : js_scope.
Notation "m ;; k" := (bind m (fun _ => k))
  (at level 61, right associativity) : js_scope.

(** ** The methods of [WaveformVis] *)

Section Methods.

(** [var minMax = require('./lib/min-max')]. *)
Variable minMax : Extractor.

Local Open Scope js_scope.
Local Open Scope string_scope.

(** What the constructor leaves behind, on top of what [LayerVis] and the
    timeline provide ([base], [data], [yScale], [duration]).  Nothing is
    cached yet.  [xxScale] is only created by [onload]; until then it
    stands as d3's default. *)
Definition constructor (b : Base) (buffer : SampleBuffer) (y : LinearScale)
    (d : Q) (now : Z) : WaveformVis :=
  {| params := {| renderingStrategy := "svg";
                  yDomain := (- (1), 1);
                  triggerUpdateZoomDelta := 5 # 100;
                  triggerUpdateDragDelta := 4;
                  useWorker := false |};
     color := "#000000";
     sampleRate := 44100;
     duration := d;
     cache := None;
     data := buffer;
     base := b;
     yScale := y;
     xxScale := {| domain := (0, 1); range := (0, 1) |};
     currentZoomFactor := 1;
     currentDragDeltaX := 0;
     resampler := false;
     currentWorkerCallTime := None;
     isProcessing := None;
     clock := now |}.

(** Number of samples per timeline pixel, aka. windowSize. *)
Definition getSamplesPerPixel (s : WaveformVis) : Q :=
  let timelineDomain := domain (xScale (base s)) in
  let timelineDuration := snd timelineDomain - fst timelineDomain in
  let timelineWidth := width (base s) in
  (timelineDuration * sampleRate s) / timelineWidth.

Definition initWorker : M unit :=
  assign (set_resampler true) ;;
  assign (set_currentWorkerCallTime (Some 0%Z)) ;;
  s <- this ;;
  emit (PostMessage (Initialize (data s) minMax)).

Definition onload : M unit :=
  s <- this ;;
  assign (set_xxScale {| domain := (0, 1); range := (0, duration s) |}) ;;
  if useWorker (params s) then initWorker else ret tt.

(** The bound rendering strategy's [draw]. *)
Definition _draw (view : DownsampledView) : M unit :=
  emit (Render view).

(** Cache the down sampling result and rebuild [xxScale].  The closing
    [this.draw(data)] is entered with an array, which is truthy, so it is
    the call [this._draw(data)] (lemma [setDownSample_draw] below). *)
Definition setDownSample (data : option DownsampledView) : M unit :=
  assign (set_isProcessing (Some false)) ;;
  match data with
  | None => throw (TypeError "length")
  | Some view =>
      s <- this ;;
      assign (set_xxScale
                {| domain := (0, inject_Z (Z.of_nat (List.length view)));
                   range := domain (xScale (base s)) |}) ;;
      assign (set_cache (Some view)) ;;
      _draw view
  end.

(** Call the resampler worker or the inline [minMax]. *)
Definition downSample : M unit :=
  s <- this ;;
  let range := range (xScale (base s)) in
  let width := snd range - fst range in
  let extractAtTimes :=
    map (fun pixel => scale_invert (xScale (base s)) (inject_Z pixel))
        (loop_indices width) in
  let yDomain := domain (yScale s) in
  let defaultValue := (fst yDomain + snd yDomain) / 2 in
  let sampleRate := sampleRate s in
  let windowSize := getSamplesPerPixel s in
  emit (ConsoleTime "downsample") ;;
  if useWorker (params s) then
    if resampler s then
      emit (PostMessage (DownSampleRequest (clock s) extractAtTimes
                           sampleRate windowSize defaultValue))
    else throw (TypeError "postMessage")
  else
    (* an ArrayBuffer is read through [new Float32Array(data)]: the same
       samples *)
    let buffer := data s in
    let downSampledView :=
      minMax buffer extractAtTimes sampleRate windowSize defaultValue in
    setDownSample (Some downSampledView).

Definition draw (data : option DownsampledView) : M unit :=
  match data with
  | None => downSample
  | Some view => _draw view
  end.

(** Called with [message.data] when the worker answers. *)
Definition resamplerResponse (data : Response) : M unit :=
  if String.eqb (cmd data) "downSample" then
    setDownSample (downSampledView data)
  else
    throw (Error ("Resampler unkown command: "
                  ++ match msg data with
                     | Some m => m
                     | None => "undefined"
                     end)).

(** The zoom event: [e.factor] and [e.delta.x]. *)
Record ZoomEvent := {
  factor : Q;
  delta_x : Q
}.

(** [this.cache()()]: the accessor made by [getSet] (of [utils], not
    among the sources) hands back what was stored and the result is
    called.  Once [this.cache(data)] has run that is a function
    returning the data; before, there is nothing to call. *)
Definition read_cache : M DownsampledView :=
  s <- this ;;
  match cache s with
  | Some view => ret view
  | None => throw (TypeError "cache")
  end.

Definition xZoom (e : ZoomEvent) : M unit :=
  s <- this ;;
  let triggerUpdateZoomDelta := triggerUpdateZoomDelta (params s) in
  let triggerUpdateDragDelta := triggerUpdateDragDelta (params s) in
  let deltaZoom := Qabs (currentZoomFactor s - factor e) in
  let deltaDrag := Qabs (currentDragDeltaX s - delta_x e) in
  if Qltb deltaZoom triggerUpdateZoomDelta
     && Qltb deltaDrag triggerUpdateDragDelta
  then
    view <- read_cache ;;
    draw (Some view)
  else
    assign (set_currentZoomFactor (factor e)) ;;
    assign (set_currentDragDeltaX (delta_x e)) ;;
    downSample.

(** The worker's answers reach [resamplerResponse] one event-loop task
    after the other; a task that throws ends alone. *)
Fixpoint deliver (rs : list Response) (s : WaveformVis)
  : WaveformVis * list Event :=
  match rs with
  | [] => (s, [])
  | r :: rs' =>
      let o := resamplerResponse r s in
      let (s', tr) := deliver rs' (after o) in
      (s', (trace o ++ tr)%list)
  end.

End Methods.

(** ** The resampler worker *)

Module ResamplerWorker.

(** Modelled from the spec: [lib/resampler-worker.js] is not among the
    sources.  The isolated context keeps the buffer and the extractor
    logic it received in the initialization message. *)
Record Context := {
  buffer : option SampleBuffer;
  logic : option Extractor
}.

(** Modelled from the spec: [lib/resampler-worker.js] is not among the
    sources.  The context before its initialization message. *)
Definition fresh : Context := {| buffer := None; logic := None |}.

(** Modelled from the spec: [lib/resampler-worker.js] is not among the
    sources.  A request is answered by running the received extractor
    logic on the received buffer; the answer carries the request's
    identifier, the command [downSample] and the view. *)
Definition onmessage (w : Context) (m : Request) : Context * list Response :=
  match m with
  | Initialize b f => ({| buffer := Some b; logic := Some f |}, [])
  | DownSampleRequest t extractAtTimes sampleRate windowSize defaultValue =>
      match buffer w, logic w with
      | Some b, Some f =>
          (w, [ {| cmd := "downSample"; time := t;
                   downSampledView :=
                     Some (f b extractAtTimes sampleRate windowSize defaultValue);
                   msg := None |} ])
      | _, _ => (w, [])
      end
  end.

(** Modelled from the spec: [lib/resampler-worker.js] is not among the
    sources.  The messages are handled in the order they were posted. *)
Fixpoint run (w : Context) (ms : list Request) : Context * list Response :=
  match ms with
  | [] => (w, [])
  | m :: ms' =>
      let (w1, out1) := onmessage w m in
      let (w2, out2) := run w1 ms' in
      (w2, out1 ++ out2)
  end.

End ResamplerWorker.

(** ** One recomputation, end to end *)

(** The messages a trace posted to the worker, in order. *)
Fixpoint posted (tr : list Event) : list Request :=
  match tr with
  | [] => []
  | PostMessage m :: tr' => m :: posted tr'
  | _ :: tr' => posted tr'
  end.

(** The views a list of answers carries, in order. *)
Fixpoint carried_views (rs : list Response) : list DownsampledView :=
  match rs with
  | [] => []
  | r :: rs' =>
      match downSampledView r with
      | Some v => v :: carried_views rs'
      | None => carried_views rs'
      end
  end.

(** The views a trace rendered, in order. *)
Fixpoint rendered (tr : list Event) : list DownsampledView :=
  match tr with
  | [] => []
  | Render v :: tr' => v :: rendered tr'
  | _ :: tr' => rendered tr'
  end.

(** [onload], then [downSample], then the worker (if any message was
    posted) and the delivery of its answers to [resamplerResponse]. *)
Definition recompute_cycle (minMax : Extractor) (s : WaveformVis)
  : WaveformVis * list Event :=
  let o1 := onload minMax s in
  let o2 := downSample minMax (after o1) in
  let answers :=
    snd (ResamplerWorker.run ResamplerWorker.fresh
           (posted (trace o1 ++ trace o2))) in
  let (s', tr) := deliver answers (after o2) in
  (s', trace o1 ++ trace o2 ++ tr).

(** The width of the time range the timeline shows. *)
Definition visibleDuration (s : WaveformVis) : Q :=
  snd (domain (xScale (base s))) - fst (domain (xScale (base s))).

(** The arguments [downSample] hands to the extractor. *)
Definition plan_times (s : WaveformVis) : list Q :=
  map (fun pixel => scale_invert (xScale (base s)) (inject_Z pixel))
      (loop_indices (snd (range (xScale (base s))) - fst (range (xScale (base s))))).

Definition plan_defaultValue (s : WaveformVis) : Q :=
  (fst (domain (yScale s)) + snd (domain (yScale s))) / 2.

(** The view an inline recomputation extracts in state [s]. *)
Definition inline_view (minMax : Extractor) (s : WaveformVis) : DownsampledView :=
  minMax (data s) (plan_times s) (sampleRate s) (getSamplesPerPixel s)
    (plan_defaultValue s).

(** The state [setDownSample] leaves when handed the view [v]. *)
Definition stored (v : DownsampledView) (s : WaveformVis) : WaveformVis :=
  set_cache (Some v)
    (set_xxScale {| domain := (0, inject_Z (Z.of_nat (List.length v)));
                    range := domain (xScale (base s)) |}
       (set_isProcessing (Some false) s)).

(** ** Statements under study *)

(** Both deltas of the event are below their thresholds. *)
Definition below_thresholds (s : WaveformVis) (e : ZoomEvent) : Prop :=
  Qabs (currentZoomFactor s - factor e) < triggerUpdateZoomDelta (params s)
  /\ Qabs (currentDragDeltaX s - delta_x e) < triggerUpdateDragDelta (params s).

(** A trace in which [downSample] ran. *)
Definition recomputes (tr : list Event) : Prop :=
  In (ConsoleTime "downsample") tr.

(** What [xZoom] leaves behind when it reuses the cache of [s]. *)
Definition reuse_outcome (s : WaveformVis) : Outcome unit :=
  match cache s with
  | Some view =>
      {| after := s; trace := [Render view]; completion := Normal tt |}
  | None =>
      {| after := s; trace := []; completion := Throw (TypeError "cache") |}
  end.

(** Answers of command [downSample], read literally: whatever else the
    answer holds, the handler returns without an error. *)
Definition downSample_answer_is_applied (r : Response) (s : WaveformVis)
  : Prop :=
  cmd r = "downSample"%string ->
  completion (resamplerResponse r s) = Normal tt.

(** Reuse, read literally: the cached view is drawn and the index scale
    now maps onto the timeline's current time range. *)
Definition reuse_rescales (minMax : Extractor)
    (s : WaveformVis) (e : ZoomEvent) (view : DownsampledView) : Prop :=
  let o := xZoom minMax e s in
  rendered (trace o) = [view]
  /\ fst (range (xxScale (after o))) == fst (domain (xScale (base s)))
  /\ snd (range (xxScale (after o))) == snd (domain (xScale (base s))).

(** The worker's answer to the request of identifier [id]; its view is
    recognisable by the identifier. *)
Definition answer (id : Z) : Response :=
  {| cmd := "downSample"; time := id;
     downSampledView := Some [(inject_Z id, inject_Z id)]; msg := None |}.

(** An answer of command [downSample] that lacks its view. *)
Definition answer_without_view : Response :=
  {| cmd := "downSample"; time := 6; downSampledView := None; msg := None |}.

(** ** Concrete instances *)

Definition demo_base : Base :=
  {| xScale := {| domain := (0, 10); range := (0, 4) |}; width := 4 |}.

Definition demo_buffer : SampleBuffer :=
  [0; 1 # 2; - (1 # 4); 3 # 4; - (1); 1 # 8; 0; 1 # 2; - (1 # 2); 1 # 4].

(** Ten samples at one sample per second, four pixels wide. *)
Definition demo_layer : WaveformVis :=
  set_sampleRate 1
    (constructor demo_base demo_buffer
       {| domain := (- (1), 1); range := (150, 0) |} 10 1000).

Definition demo_view : DownsampledView :=
  [(- (1 # 4), 1 # 2); (- (1), 3 # 4); (0, 1 # 8)].

(** A small gesture: zoom factor 1.02, one pixel of drag. *)
Definition small_event : ZoomEvent := {| factor := 102 # 100; delta_x := 1 |}.

(** A large zoom: factor 1.2. *)
Definition large_event : ZoomEvent := {| factor := 12 # 10; delta_x := 0 |}.

(** The demo layer set to use the worker, loaded and drawn once: the
    request is posted, its answer has not come back, nothing is cached. *)
Definition demo_pending : WaveformVis :=
  after (draw MinMaxExtractor.extract None
           (after (onload MinMaxExtractor.extract
                     (set_useWorker true demo_layer)))).

(** The demo layer after a view was stored against the range [0, 10]. *)
Definition demo_stored : WaveformVis :=
  after (setDownSample (Some demo_view) demo_layer).

(** ... and after the timeline moved on to [5, 15]. *)
Definition demo_moved : WaveformVis := set_base_domain (5, 15) demo_stored.

(** * The breakpoint behavior

    [BreakpointBehavior.edit]: a breakpoint dragged by [(dx, dy)] pixels
    is kept between its neighbours and inside the layer. *)

Module BreakpointBehavior.

(** What [shape.cx(datum)] and [shape.cy(datum)] read and write. *)
Record Datum := {
  cx : Q;
  cy : Q
}.

Record RenderingContext := {
  height : Q;
  xScale : LinearScale;
  yScale : LinearScale
}.

(** [xMap.sort((a, b) => a < b ? -1 : 1)]: the positions in increasing
    order (numbers that compare equal are the same number, so their
    relative order does not show). *)
Fixpoint insert (a : Q) (l : list Q) : list Q :=
  match l with
  | [] => [a]
  | b :: l' => if Qltb b a then b :: insert a l' else a :: l
  end.

Definition sort (l : list Q) : list Q := fold_right insert [] l.

(** [xMap.indexOf(x)]: the first index holding [x], or -1. *)
Fixpoint indexOf (l : list Q) (x : Q) : Z :=
  match l with
  | [] => (-1)%Z
  | a :: l' =>
      if Qeq_bool a x then 0%Z
      else let i := indexOf l' x in
           if (i <? 0)%Z then (-1)%Z else (i + 1)%Z
  end.

(** [xMap[k]]: [undefined] outside the array. *)
Definition at_index (l : list Q) (k : Z) : option Q :=
  if (k <? 0)%Z then None else nth_error l (Z.to_nat k).

(** [a < b] and [a > b] where [b] may be [undefined]: then false. *)
Definition lt_maybe (a : Q) (b : option Q) : bool :=
  match b with
  | Some b => Qltb a b
  | None => false
  end.

Definition gt_maybe (a : Q) (b : option Q) : bool :=
  match b with
  | Some b => Qltb b a
  | None => false
  end.

(** The sorted map of all [x] positions. *)
Definition positions (ctx : RenderingContext) (data : list Datum) : list Q :=
  sort (map (fun d => scale_apply (xScale ctx) (cx d)) data).

(** The target abscissa, locked to the next siblings. *)
Definition lockedX (ctx : RenderingContext) (data : list Datum)
    (datum : Datum) (dx : Q) : Q :=
  let x := scale_apply (xScale ctx) (cx datum) in
  let targetX := x + dx in
  if (2 <? List.length data)%nat then
    let xMap := positions ctx data in
    let index := indexOf xMap x in
    if lt_maybe targetX (at_index xMap (index - 1))
       || gt_maybe targetX (at_index xMap (index + 1))
    then x
    else targetX
  else targetX.

(** The target ordinate, locked in the y axis. *)
Definition lockedY (ctx : RenderingContext) (datum : Datum) (dy : Q) : Q :=
  let layerHeight := height ctx in
  let y := scale_apply (yScale ctx) (cy datum) in
  let targetY := y - dy in
  if Qltb targetY 0 then 0
  else if Qltb layerHeight targetY then layerHeight
  else targetY.

(** [edit(renderingContext, shape, datum, dx, dy, target)]: the datum
    with its new values. *)
Definition edit (ctx : RenderingContext) (data : list Datum) (datum : Datum)
    (dx dy : Q) : Datum :=
  {| cx := scale_invert (xScale ctx) (lockedX ctx data datum dx);
     cy := scale_invert (yScale ctx) (lockedY ctx datum dy) |}.

(** A layer 1000 pixels wide for 10 seconds and 100 pixels high, with
    three breakpoints at 1, 4 and 6 seconds. *)
Definition demo_ctx : RenderingContext :=
  {| height := 100;
     xScale := {| domain := (0, 10); range := (0, 1000) |};
     yScale := {| domain := (0, 1); range := (100, 0) |} |}.

Definition demo_first : Datum := {| cx := 1; cy := 1 # 2 |}.
Definition demo_middle : Datum := {| cx := 4; cy := 1 # 4 |}.
Definition demo_last : Datum := {| cx := 6; cy := 3 # 4 |}.

Definition demo_data : list Datum := [demo_first; demo_middle; demo_last].

End BreakpointBehavior.

(** * Plain objects used as dictionaries

    [this._trackById = {}] and [this._groupedLayers = {}]: own properties
    in insertion order, over what every object inherits. *)

Module JSObject.

Definition t (V : Type) : Type := list (string * V).

(** The property names every plain object inherits. *)
Definition prototype_keys : list string :=
  [ "constructor"; "hasOwnProperty"; "isPrototypeOf";
    "propertyIsEnumerable"; "toLocaleString"; "toString"; "valueOf";
    "__proto__"; "__defineGetter__"; "__defineSetter__";
    "__lookupGetter__"; "__lookupSetter__" ]%string.

Definition inherited (k : string) : bool :=
  existsb (String.eqb k) prototype_keys.

Fixpoint own {V} (o : t V) (k : string) : option V :=
  match o with
  | [] => None
  | (k', v) :: o' => if String.eqb k' k then Some v else own o' k
  end.

(** What [o[k]] evaluates to. *)
Inductive Property (V : Type) : Type :=
| Own (v : V)
| Inherited
| Undefined.
Arguments Own {V} v.
Arguments Inherited {V}.
Arguments Undefined {V}.

Definition get {V} (o : t V) (k : string) : Property V :=
  match own o k with
  | Some v => Own v
  | None => if inherited k then Inherited else Undefined
  end.

(** [o[k] = v] for a name that is not inherited. *)
Fixpoint set {V} (o : t V) (k : string) (v : V) : t V :=
  match o with
  | [] => [(k, v)]
  | (k', v') :: o' =>
      if String.eqb k' k then (k', v) :: o' else (k', v') :: set o' k v
  end.

(** [delete o[k]]. *)
Fixpoint delete {V} (o : t V) (k : string) : t V :=
  match o with
  | [] => []
  | (k', v') :: o' =>
      if String.eqb k' k then delete o' k else (k', v') :: delete o' k
  end.

(** The names [for (k in o)] visits, each once. *)
Definition keys {V} (o : t V) : list string :=
  nodup string_dec (map fst o).

End JSObject.

(** * The timeline

    The stores of [Timeline] and the methods that use them.  Calls that
    leave the class (into tracks, states, interactions, the event
    emitter) are recorded in the trace and taken to return. *)

Module Timeline.

(** Object identities.  A track is made by [createTrack] or handed in by
    the caller. *)
Inductive Track : Type :=
| Created (n : nat)
| Given (n : nat).

Definition Layer := nat.
Definition State := nat.
Definition InputEvent := nat.

Definition Track_eqb (a b : Track) : bool :=
  match a, b with
  | Created n, Created m => Nat.eqb n m
  | Given n, Given m => Nat.eqb n m
  | _, _ => false
  end.

Inductive EventSource : Type := Keyboard | Surface.

Inductive Target : Type :=
| Body                       (* ['body'] *)
| ElementOf (t : Track).     (* [track.$el] *)

Inductive Call : Type :=
| CreateInteraction (ctor : EventSource) (el : Target)
| Configure (t : Track)                (* [track.configure(this.timeContext)] *)
| TrackAdd (t : Track) (l : Layer)     (* [track.add(layer)] *)
| TrackRemove (t : Track) (l : Layer)  (* [track.remove(layer)] *)
| Emit (e : InputEvent)                (* [this.emit('event', e)] *)
| StateHandleEvent (s : State) (e : InputEvent)
| StateExit (s : State)
| StateEnter (s : State).

Record t := {
  _tracks : list Track;
  _state : option State;
  _trackById : JSObject.t Track;
  _groupedLayers : JSObject.t (list Layer);
  created : nat     (* how many tracks [createTrack] has made *)
}.

Record Outcome (A : Type) := {
  after : t;
  calls : list Call;
  completion : Completion A
}.
Arguments after {A} o.
Arguments calls {A} o.
Arguments completion {A} o.

Definition with_tracks (ts : list Track) (tl : t) : t :=
  {| _tracks := ts; _state := _state tl; _trackById := _trackById tl;
     _groupedLayers := _groupedLayers tl; created := created tl |}.

Definition with_state (s : option State) (tl : t) : t :=
  {| _tracks := _tracks tl; _state := s; _trackById := _trackById tl;
     _groupedLayers := _groupedLayers tl; created := created tl |}.

Definition with_trackById (o : JSObject.t Track) (tl : t) : t :=
  {| _tracks := _tracks tl; _state := _state tl; _trackById := o;
     _groupedLayers := _groupedLayers tl; created := created tl |}.

Definition with_groupedLayers (o : JSObject.t (list Layer)) (tl : t) : t :=
  {| _tracks := _tracks tl; _state := _state tl; _trackById := _trackById tl;
     _groupedLayers := o; created := created tl |}.

Definition with_created (n : nat) (tl : t) : t :=
  {| _tracks := _tracks tl; _state := _state tl; _trackById := _trackById tl;
     _groupedLayers := _groupedLayers tl; created := n |}.

(** [new Timeline()]. *)
Definition constructor : Outcome unit :=
  {| after := {| _tracks := []; _state := None; _trackById := [];
                 _groupedLayers := []; created := 0 |};
     calls := [CreateInteraction Keyboard Body];
     completion := Normal tt |}.

Definition _handleEvent (e : InputEvent) (tl : t) : Outcome unit :=
  {| after := tl;
     calls := Emit e :: match _state tl with
                        | None => []
                        | Some s => [StateHandleEvent s e]
                        end;
     completion := Normal tt |}.

(** [set state(state)]. *)
Definition set_state (s : State) (tl : t) : Outcome unit :=
  {| after := with_state (Some s) tl;
     calls := match _state tl with
              | None => []
              | Some old => [StateExit old]
              end ++ [StateEnter s];
     completion := Normal tt |}.

Definition add (track : Track) (tl : t) : Outcome unit :=
  if existsb (Track_eqb track) (_tracks tl) then
    {| after := tl; calls := [];
       completion := Throw (Error "track already added to the timeline") |}
  else
    {| after := with_tracks (_tracks tl ++ [track]) tl;
       calls := [Configure track; CreateInteraction Surface (ElementOf track)];
       completion := Normal tt |}.

(** The double quote of the message of [createTrack]. *)
Definition quote : string := String (Ascii.ascii_of_nat 34) EmptyString.

Definition getTrackById (trackId : string) (tl : t) : JSObject.Property Track :=
  JSObject.get (_trackById tl) trackId.

Definition getLayersByGroup (groupId : string) (tl : t)
  : JSObject.Property (list Layer) :=
  JSObject.get (_groupedLayers tl) groupId.

(** [createTrack($el, trackHeight, trackId)]; [None] is the default
    [trackId = null]. *)
Definition createTrack (trackId : option string) (tl : t) : Outcome Track :=
  let track := Created (created tl) in
  let tl := with_created (S (created tl)) tl in
  match trackId with
  | Some id =>
      match JSObject.get (_trackById tl) id with
      | JSObject.Undefined =>
          let tl := with_trackById (JSObject.set (_trackById tl) id track) tl in
          let o := add track tl in
          {| after := after o; calls := calls o;
             completion := match completion o with
                           | Normal _ => Normal track
                           | Throw e => Throw e
                           end |}
      | _ =>
          {| after := tl; calls := [];
             completion :=
               Throw (Error ("trackId: " ++ quote ++ id ++ quote
                             ++ " is already used")) |}
      end
  | None =>
      let o := add track tl in
      {| after := after o; calls := calls o;
         completion := match completion o with
                       | Normal _ => Normal track
                       | Throw e => Throw e
                       end |}
  end.

(** The second argument of [addLayer]: a track or the id of one. *)
Inductive TrackOrTrackId : Type :=
| ATrack (track : Track)
| ATrackId (id : string).

(** [addLayer(layer, trackOrTrackId, groupId)]; [None] is the default
    [groupId = 'default']. *)
Definition addLayer (layer : Layer) (trackOrTrackId : TrackOrTrackId)
    (groupId : option string) (tl : t) : Outcome unit :=
  let groupId := match groupId with Some g => g | None => "default"%string end in
  let track := match trackOrTrackId with
               | ATrack track => JSObject.Own track
               | ATrackId id => getTrackById id tl
               end in
  match track with
  | JSObject.Own track =>
      let groups :=
        match JSObject.get (_groupedLayers tl) groupId with
        | JSObject.Undefined => JSObject.set (_groupedLayers tl) groupId []
        | _ => _groupedLayers tl
        end in
      match JSObject.get groups groupId with
      | JSObject.Own group =>
          {| after :=
               with_groupedLayers
                 (JSObject.set groups groupId (group ++ [layer])) tl;
             calls := [TrackAdd track layer];
             completion := Normal tt |}
      | _ =>
          (* an inherited member has no [push] *)
          {| after := with_groupedLayers groups tl;
             calls := [TrackAdd track layer];
             completion := Throw (TypeError "push") |}
      end
  | _ =>
      (* no [add] on [undefined] nor on an inherited member *)
      {| after := tl; calls := []; completion := Throw (TypeError "add") |}
  end.

(** [group.indexOf(layer) !== -1]. *)
Definition has_layer (group : list Layer) (layer : Layer) : bool :=
  existsb (Nat.eqb layer) group.

(** One turn of [for (let groupId in this._groupedLayers)].
    [group.splice(layer, 1)] is handed a layer where a start index is
    expected: an object converts to no number, so the start is 0 and the
    first element of the group is the one removed. *)
Definition removeLayer_turn (layer : Layer)
    (groups : JSObject.t (list Layer)) (groupId : string)
  : JSObject.t (list Layer) :=
  match JSObject.own groups groupId with
  | None => groups
  | Some group =>
      let group := if has_layer group layer then tl group else group in
      let groups := JSObject.set groups groupId group in
      if (List.length group =? 0)%nat then JSObject.delete groups groupId
      else groups
  end.

Section RemoveLayer.

(** [track.layers], as the tracks hold them when [removeLayer] runs. *)
Variable layers_of : Track -> list Layer.

Definition removeLayer (layer : Layer) (tl : t) : Outcome unit :=
  {| after :=
       with_groupedLayers
         (fold_left (removeLayer_turn layer)
            (JSObject.keys (_groupedLayers tl)) (_groupedLayers tl)) tl;
     calls :=
       flat_map (fun track =>
                   if has_layer (layers_of track) layer
                   then [TrackRemove track layer] else [])
                (_tracks tl);
     completion := Normal tt |}.

End RemoveLayer.

(** The ids of the tracks made so far are below the counter: the next
    [new Track] is a new object. *)
Definition counter_ahead (tl : t) : Prop :=
  forall n, In (Created n) (_tracks tl) -> (n < created tl)%nat.

End Timeline.

(** * The context edition state

    [ContextEditionState]: a mouse gesture on a layer element edits, or
    with shift stretches, the time context of that layer. *)

Module ContextEditionState.

Definition Layer := nat.
Definition Element := nat.

(** The event: [e.type], [e.target], [e.dx], [e.dy] and
    [e.originalEvent.shiftKey]. *)
Record MouseEvent := {
  type : string;
  target : Element;
  dx : Q;
  dy : Q;
  shiftKey : bool
}.

(** The fields of the state; a field never assigned or [null] is [None],
    and [mouseDown] never assigned counts as [false]. *)
Record t := {
  mouseDown : bool;
  currentTarget : option Element;
  currentLayer : option Layer
}.

Inductive Call : Type :=
| EditContext (layer : Layer) (dx dy : Q) (target : option Element)
| StretchContext (layer : Layer) (dx dy : Q) (target : option Element)
| TracksUpdate (layer : Layer).   (* [this.timeline.tracks.update(layer)] *)

(** After the constructor. *)
Definition initial : t :=
  {| mouseDown := false; currentTarget := None; currentLayer := None |}.

Section Handlers.

(** [this.layers] and [layer.hasElement(element)]. *)
Variable layers : list Layer.
Variable hasElement : Layer -> Element -> bool.

(** The loop of [onMouseDown]: the first layer holding the element, if
    there is one. *)
Fixpoint first_layer_with (ls : list Layer) (el : Element) : option Layer :=
  match ls with
  | [] => None
  | layer :: ls' =>
      if hasElement layer el then Some layer else first_layer_with ls' el
  end.

Definition onMouseDown (e : MouseEvent) (st : t) : t * list Call :=
  ({| mouseDown := true;
      currentTarget := Some (target e);
      currentLayer := match first_layer_with layers (target e) with
                      | Some layer => Some layer
                      | None => currentLayer st
                      end |}, []).

Definition onMouseMove (e : MouseEvent) (st : t) : t * list Call :=
  match mouseDown st, currentLayer st with
  | true, Some layer =>
      (st,
       [ if shiftKey e
         then StretchContext layer (dx e) (dy e) (currentTarget st)
         else EditContext layer (dx e) (dy e) (currentTarget st);
         TracksUpdate layer ])
  | _, _ => (st, [])
  end.

Definition onMouseUp (e : MouseEvent) (st : t) : t * list Call :=
  ({| mouseDown := false; currentTarget := None; currentLayer := None |}, []).

Definition handleEvent (e : MouseEvent) (st : t) : t * list Call :=
  if String.eqb (type e) "mousedown" then onMouseDown e st
  else if String.eqb (type e) "mousemove" then onMouseMove e st
  else if String.eqb (type e) "mouseup" then onMouseUp e st
  else (st, []).

(** The events of a gesture, handled one after the other. *)
Fixpoint handleEvents (es : list MouseEvent) (st : t) : t * list Call :=
  match es with
  | [] => (st, [])
  | e :: es' =>
      let (st1, calls1) := handleEvent e st in
      let (st2, calls2) := handleEvents es' st1 in
      (st2, calls1 ++ calls2)
  end.

End Handlers.

(** Calls that come as an edit or a stretch of a layer followed by the
    update of that layer. *)
Fixpoint edits_then_updates (cs : list Call) : bool :=
  match cs with
  | [] => true
  | EditContext l _ _ _ :: TracksUpdate l' :: cs' =>
      Nat.eqb l l' && edits_then_updates cs'
  | StretchContext l _ _ _ :: TracksUpdate l' :: cs' =>
      Nat.eqb l l' && edits_then_updates cs'
  | _ => false
  end.

(** What a move does while [layer] is held by [el]. *)
Definition move_calls (layer : Layer) (el : Element) (e : MouseEvent)
  : list Call :=
  [ if shiftKey e
    then StretchContext layer (dx e) (dy e) (Some el)
    else EditContext layer (dx e) (dy e) (Some el);
    TracksUpdate layer ].

End ContextEditionState.

(** * Properties *)

(** ** Numbers and loops *)

Lemma Qltb_lt (a b : Q) : Qltb a b = true <-> a < b.
Proof. unfold Qltb, Qlt. apply Z.ltb_lt. Qed.

Lemma below_thresholds_gate (s : WaveformVis) (e : ZoomEvent) :
  Qltb (Qabs (currentZoomFactor s - factor e)) (triggerUpdateZoomDelta (params s))
  && Qltb (Qabs (currentDragDeltaX s - delta_x e)) (triggerUpdateDragDelta (params s))
  = true <-> below_thresholds s e.
Proof.
  unfold below_thresholds. rewrite andb_true_iff, !Qltb_lt. reflexivity.
Qed.

Lemma not_below_thresholds_gate (s : WaveformVis) (e : ZoomEvent) :
  Qltb (Qabs (currentZoomFactor s - factor e)) (triggerUpdateZoomDelta (params s))
  && Qltb (Qabs (currentDragDeltaX s - delta_x e)) (triggerUpdateDragDelta (params s))
  = false <-> ~ below_thresholds s e.
Proof.
  rewrite <- below_thresholds_gate.
  destruct (_ && _); split; intro H; congruence.
Qed.

(** The loop [for (k = 0; k < bound; k++)] visits exactly the integers
    [k] with [0 <= k < bound], in increasing order. *)
Lemma loop_indices_spec (bound : Q) (k : Z) :
  In k (loop_indices bound) <-> (0 <= k)%Z /\ inject_Z k < bound.
Proof.
  unfold loop_indices. rewrite in_map_iff. split.
  - intros (n & <- & Hn). apply in_seq in Hn. split; [lia|].
    apply Qle_lt_trans with (y := inject_Z (Qceiling bound - 1)).
    + rewrite <- Zle_Qle. lia.
    + apply Qceiling_lt.
  - intros [H0 Hlt]. exists (Z.to_nat k). split; [lia|].
    apply in_seq. split; [lia|]. simpl.
    assert (Hc : (k < Qceiling bound)%Z).
    { rewrite Zlt_Qlt. eapply Qlt_le_trans; [exact Hlt | apply Qle_ceiling]. }
    lia.
Qed.

(** The window of a column is the integer part of [[i, i + windowSize)]. *)
Lemma window_indices_spec (i : Z) (windowSize : Q) (j : Z) :
  In j (MinMaxExtractor.window_indices i windowSize)
  <-> (i <= j)%Z /\ inject_Z j < inject_Z i + windowSize.
Proof.
  unfold MinMaxExtractor.window_indices. rewrite in_map_iff. split.
  - intros (k & <- & Hk). apply loop_indices_spec in Hk.
    destruct Hk as [H0 Hlt]. split; [lia|].
    rewrite inject_Z_plus. apply Qplus_lt_r. exact Hlt.
  - intros [Hle Hlt]. exists (j - i)%Z. split; [lia|].
    apply loop_indices_spec. split; [lia|].
    apply (Qplus_lt_r _ _ (inject_Z i)). rewrite <- inject_Z_plus.
    replace (i + (j - i))%Z with j by lia. exact Hlt.
Qed.

(** ** The methods, step by step *)

Lemma outcome_eta {A} (o : Outcome A) :
  {| after := after o; trace := trace o; completion := completion o |} = o.
Proof. destruct o; reflexivity. Qed.

Lemma bind_this {A} (k : WaveformVis -> M A) (s : WaveformVis) :
  bind this k s = k s s.
Proof. unfold bind, this; simpl. apply outcome_eta. Qed.

Lemma bind_assign {A} (f : WaveformVis -> WaveformVis) (k : M A) (s : WaveformVis) :
  bind (assign f) (fun _ => k) s = k (f s).
Proof. unfold bind, assign; simpl. apply outcome_eta. Qed.

Lemma bind_emit {A} (e : Event) (k : M A) (s : WaveformVis) :
  bind (emit e) (fun _ => k) s =
  {| after := after (k s); trace := e :: trace (k s);
     completion := completion (k s) |}.
Proof. reflexivity. Qed.

Section MethodFacts.

Variable minMax : Extractor.

Lemma draw_present (v : DownsampledView) (s : WaveformVis) :
  draw minMax (Some v) s =
  {| after := s; trace := [Render v]; completion := Normal tt |}.
Proof. reflexivity. Qed.

(** The last statement of [setDownSample] is [this.draw(data)]. *)
Lemma setDownSample_draw (v : DownsampledView) (s : WaveformVis) :
  setDownSample (Some v) s =
  bind (assign (set_isProcessing (Some false)))
    (fun _ => bind this (fun s0 =>
       bind (assign (set_xxScale
                       {| domain := (0, inject_Z (Z.of_nat (List.length v)));
                          range := domain (xScale (base s0)) |}))
         (fun _ => bind (assign (set_cache (Some v)))
            (fun _ => draw minMax (Some v))))) s.
Proof. reflexivity. Qed.

Lemma setDownSample_present (v : DownsampledView) (s : WaveformVis) :
  setDownSample (Some v) s =
  {| after := stored v s; trace := [Render v]; completion := Normal tt |}.
Proof. reflexivity. Qed.

Lemma setDownSample_absent (s : WaveformVis) :
  setDownSample None s =
  {| after := set_isProcessing (Some false) s; trace := [];
     completion := Throw (TypeError "length") |}.
Proof. reflexivity. Qed.

Lemma downSample_inline (s : WaveformVis) :
  useWorker (params s) = false ->
  downSample minMax s =
  {| after := stored (inline_view minMax s) s;
     trace := [ConsoleTime "downsample"; Render (inline_view minMax s)];
     completion := Normal tt |}.
Proof.
  intro Hw. unfold downSample. rewrite bind_this. cbv zeta.
  rewrite bind_emit, Hw, setDownSample_present. reflexivity.
Qed.

Lemma downSample_offloaded (s : WaveformVis) :
  useWorker (params s) = true ->
  resampler s = true ->
  downSample minMax s =
  {| after := s;
     trace := [ConsoleTime "downsample";
               PostMessage (DownSampleRequest (clock s) (plan_times s)
                              (sampleRate s) (getSamplesPerPixel s)
                              (plan_defaultValue s))];
     completion := Normal tt |}.
Proof.
  intros Hw Hr. unfold downSample. rewrite bind_this. cbv zeta.
  rewrite bind_emit, Hw, Hr. reflexivity.
Qed.

Lemma downSample_no_worker (s : WaveformVis) :
  useWorker (params s) = true ->
  resampler s = false ->
  downSample minMax s =
  {| after := s; trace := [ConsoleTime "downsample"];
     completion := Throw (TypeError "postMessage") |}.
Proof.
  intros Hw Hr. unfold downSample. rewrite bind_this. cbv zeta.
  rewrite bind_emit, Hw, Hr. reflexivity.
Qed.

(** Every run of [downSample] starts the recomputation timer. *)
Lemma downSample_recomputes (s : WaveformVis) :
  recomputes (trace (downSample minMax s)).
Proof.
  unfold recomputes.
  destruct (useWorker (params s)) eqn:Hw.
  - destruct (resampler s) eqn:Hr.
    + rewrite downSample_offloaded by assumption. simpl. auto.
    + rewrite downSample_no_worker by assumption. simpl. auto.
  - rewrite downSample_inline by assumption. simpl. auto.
Qed.

(** What [downSample] renders, if anything, is the view it has just
    extracted and stored. *)
Lemma downSample_rendered (s : WaveformVis) (v : DownsampledView) :
  In (Render v) (trace (downSample minMax s)) ->
  useWorker (params s) = false /\ v = inline_view minMax s
  /\ cache (after (downSample minMax s)) = Some v.
Proof.
  destruct (useWorker (params s)) eqn:Hw.
  - destruct (resampler s) eqn:Hr.
    + rewrite downSample_offloaded by assumption. simpl.
      intros [H|[H|[]]]; discriminate.
    + rewrite downSample_no_worker by assumption. simpl.
      intros [H|[]]; discriminate.
  - rewrite downSample_inline by assumption. simpl.
    intros [H|[H|[]]]; [discriminate|]. injection H as <-. auto.
Qed.

Lemma xZoom_reuse (s : WaveformVis) (e : ZoomEvent) :
  below_thresholds s e ->
  xZoom minMax e s = reuse_outcome s.
Proof.
  intro Hb. apply below_thresholds_gate in Hb.
  unfold xZoom. rewrite bind_this. cbv zeta. rewrite Hb.
  unfold reuse_outcome, read_cache, bind, this. cbn.
  destruct (cache s); reflexivity.
Qed.

Lemma reuse_outcome_quiet (s : WaveformVis) :
  ~ recomputes (trace (reuse_outcome s)).
Proof.
  unfold recomputes, reuse_outcome.
  destruct (cache s); simpl; [intros [H|[]]; discriminate | tauto].
Qed.

Lemma xZoom_recompute (s : WaveformVis) (e : ZoomEvent) :
  ~ below_thresholds s e ->
  xZoom minMax e s =
  downSample minMax
    (set_currentDragDeltaX (delta_x e) (set_currentZoomFactor (factor e) s)).
Proof.
  intro Hb. apply not_below_thresholds_gate in Hb.
  unfold xZoom. rewrite bind_this. cbv zeta. rewrite Hb.
  rewrite !bind_assign. reflexivity.
Qed.

End MethodFacts.

(** ** Answers of the worker *)

(** An answer carrying the command [downSample] and a view is applied
    whatever its identifier says. *)
Lemma resamplerResponse_downSample (r : Response) (v : DownsampledView)
    (s : WaveformVis) :
  cmd r = "downSample"%string ->
  downSampledView r = Some v ->
  resamplerResponse r s =
  {| after := stored v s; trace := [Render v]; completion := Normal tt |}.
Proof.
  intros Hc Hv. unfold resamplerResponse. rewrite Hc, Hv. reflexivity.
Qed.

Lemma resamplerResponse_other (r : Response) (s : WaveformVis) :
  cmd r <> "downSample"%string ->
  resamplerResponse r s =
  {| after := s; trace := [];
     completion :=
       Throw (Error ("Resampler unkown command: "
                     ++ match msg r with
                        | Some m => m
                        | None => "undefined"
                        end)%string) |}.
Proof.
  intro Hc. unfold resamplerResponse.
  destruct (String.eqb_spec (cmd r) "downSample"); [contradiction|reflexivity].
Qed.

Lemma rendered_app (tr1 tr2 : list Event) :
  rendered (tr1 ++ tr2) = rendered tr1 ++ rendered tr2.
Proof.
  induction tr1 as [|ev tr1 IH]; [reflexivity|].
  destruct ev; simpl; rewrite IH; reflexivity.
Qed.

Lemma last_default_irrelevant {A} (l : list A) (d d' : A) :
  l <> [] -> last l d = last l d'.
Proof.
  induction l as [|a [|b l] IH]; intro Hne;
    [contradiction | reflexivity | apply IH; discriminate].
Qed.

(** Whatever the order of their identifiers, a run of [downSample] answers
    is rendered view after view, and the last one stays in the cache. *)
Lemma deliver_applies_all (rs : list Response) :
  Forall (fun r => cmd r = "downSample"%string /\ downSampledView r <> None) rs ->
  forall s,
    rendered (snd (deliver rs s)) = carried_views rs
    /\ cache (fst (deliver rs s)) = last (map downSampledView rs) (cache s).
Proof.
  induction 1 as [|r rs [Hc Hv] _ IH]; intro s; [split; reflexivity|].
  destruct (downSampledView r) as [v|] eqn:Ev; [clear Hv|contradiction].
  specialize (IH (stored v s)). destruct IH as [IHr IHc].
  simpl. rewrite (resamplerResponse_downSample r v s Hc Ev). simpl.
  rewrite Ev. destruct (deliver rs (stored v s)) as [s' tr] eqn:Ed.
  simpl in *. split.
  - rewrite IHr. reflexivity.
  - rewrite IHc. destruct rs as [|r0 rs]; [reflexivity|].
    apply last_default_irrelevant. discriminate.
Qed.

(** C1.  The acceptance test on the identifier is disabled in
    [resamplerResponse]: answers arriving in the order 3, 1, 5, 2, 4 are
    all applied, in that order, and the view left in the cache is the one
    of identifier 4, not the one of identifier 5. *)
Theorem resamplerResponse_applies_stale_answers (s : WaveformVis) :
  let r := deliver (map answer [3; 1; 5; 2; 4]%Z) s in
  rendered (snd r) = [[(3, 3)]; [(1, 1)]; [(5, 5)]; [(2, 2)]; [(4, 4)]]
  /\ cache (fst r) = downSampledView (answer 4)
  /\ cache (fst r) <> downSampledView (answer 5).
Proof.
  repeat split. discriminate.
Qed.

(** The claim C9 as it is written fails: an answer of command
    [downSample] that carries no view makes the handler throw. *)
Lemma resamplerResponse_downSample_may_throw :
  ~ downSample_answer_is_applied answer_without_view demo_stored.
Proof.
  intro Happlied. specialize (Happlied eq_refl). discriminate Happlied.
Qed.

(** C9, amended.  An answer whose command is not [downSample] makes the
    handler throw, with nothing applied; an answer whose command is
    [downSample] and which carries its view returns normally with that
    view stored and drawn. *)
Theorem resamplerResponse_protocol (r : Response) (s : WaveformVis) :
  (cmd r <> "downSample"%string ->
   exists message,
     resamplerResponse r s =
     {| after := s; trace := []; completion := Throw (Error message) |})
  /\ (cmd r = "downSample"%string ->
      forall v, downSampledView r = Some v ->
      let o := resamplerResponse r s in
      completion o = Normal tt
      /\ cache (after o) = Some v
      /\ trace o = [Render v]).
Proof.
  split.
  - intro Hc. eexists. apply resamplerResponse_other, Hc.
  - intros Hc v Hv. cbv zeta.
    rewrite (resamplerResponse_downSample r v s Hc Hv). repeat split.
Qed.

Lemma resamplerResponse_protocol_witness :
  (exists message,
     resamplerResponse
       {| cmd := "resample"; time := 7; downSampledView := None; msg := None |}
       demo_layer =
     {| after := demo_layer; trace := [];
        completion := Throw (Error message) |})
  /\ completion (resamplerResponse (answer 7) demo_layer) = Normal tt.
Proof.
  split.
  - apply (proj1 (resamplerResponse_protocol
                    {| cmd := "resample"; time := 7;
                       downSampledView := None; msg := None |} demo_layer)).
    simpl. discriminate.
  - apply (proj2 (resamplerResponse_protocol (answer 7) demo_layer)
             eq_refl [(7, 7)] eq_refl).
Defined.

(** ** Drawing *)

(** C10.  [draw] called without data does not reach the renderer with
    it: the call is the call of [downSample], which recomputes; whatever
    a call of [draw] renders is either the view it was handed or the view
    the recomputation has just extracted and cached. *)
Theorem draw_absent_recomputes (minMax : Extractor) (s : WaveformVis) :
  draw minMax None s = downSample minMax s
  /\ recomputes (trace (draw minMax None s))
  /\ (forall data v,
        In (Render v) (trace (draw minMax data s)) ->
        data = Some v
        \/ (data = None /\ v = inline_view minMax s
            /\ cache (after (draw minMax data s)) = Some v)).
Proof.
  split; [reflexivity|]. split.
  - apply downSample_recomputes.
  - intros [view|] v Hin.
    + left. simpl in Hin. destruct Hin as [H|[]]. injection H as <-. reflexivity.
    + right. split; [reflexivity|].
      apply (downSample_rendered minMax s v) in Hin. tauto.
Qed.

Lemma draw_absent_recomputes_witness :
  draw MinMaxExtractor.extract None demo_layer
  = downSample MinMaxExtractor.extract demo_layer
  /\ cache (after (draw MinMaxExtractor.extract None demo_layer))
     = Some [(- (1 # 4), 1 # 2); (- (1), 3 # 4); (0, 1 # 2); (- (1 # 2), 1 # 4)].
Proof.
  split.
  - apply (proj1 (draw_absent_recomputes MinMaxExtractor.extract demo_layer)).
  - destruct (proj2 (proj2 (draw_absent_recomputes MinMaxExtractor.extract
                              demo_layer))
                None
                [(- (1 # 4), 1 # 2); (- (1), 3 # 4); (0, 1 # 2); (- (1 # 2), 1 # 4)])
      as [H|(_ & _ & H)].
    + vm_compute. right. left. reflexivity.
    + discriminate H.
    + exact H.
Defined.

(** ** Caching a view *)

Lemma scale_apply_low (x : LinearScale) :
  scale_apply x (fst (domain x)) == fst (range x).
Proof. unfold scale_apply, Qdiv. ring. Qed.

Lemma scale_apply_high (x : LinearScale) :
  ~ snd (domain x) - fst (domain x) == 0 ->
  scale_apply x (snd (domain x)) == snd (range x).
Proof. intro H. unfold scale_apply. field. exact H. Qed.

(** C6.  [setDownSample] puts the view it is handed in the cache, whatever
    the cache held, and rebuilds [xxScale] with the domain
    [[0, view.length]] and, as its range, the time range the timeline
    shows at that moment: index 0 is sent to the start of that range and
    index [view.length] to its end. *)
Theorem setDownSample_replaces_and_rebuilds
    (view : DownsampledView) (s : WaveformVis) :
  let o := setDownSample (Some view) s in
  let n := inject_Z (Z.of_nat (List.length view)) in
  completion o = Normal tt
  /\ cache (after o) = Some view
  /\ (forall previous,
        cache (after (setDownSample (Some view) (set_cache previous s)))
        = Some view)
  /\ xxScale (after o)
     = {| domain := (0, n); range := domain (xScale (base s)) |}
  /\ scale_apply (xxScale (after o)) 0 == fst (domain (xScale (base s)))
  /\ (view <> [] ->
      scale_apply (xxScale (after o)) n == snd (domain (xScale (base s)))).
Proof.
  cbv zeta. rewrite setDownSample_present. simpl.
  repeat split.
  - apply (scale_apply_low
             {| domain := (0, inject_Z (Z.of_nat (List.length view)));
                range := domain (xScale (base s)) |}).
  - intro Hne.
    apply (scale_apply_high
             {| domain := (0, inject_Z (Z.of_nat (List.length view)));
                range := domain (xScale (base s)) |}).
    simpl. destruct view as [|p view']; [contradiction|].
    unfold Qeq, Qminus, Qplus. simpl. lia.
Qed.

Lemma setDownSample_replaces_and_rebuilds_witness :
  cache (after (setDownSample (Some demo_view) demo_layer)) = Some demo_view
  /\ scale_apply (xxScale (after (setDownSample (Some demo_view) demo_layer))) 3
     == 10.
Proof.
  pose proof (setDownSample_replaces_and_rebuilds demo_view demo_layer) as H.
  cbv zeta in H. destruct H as (_ & Hc & _ & _ & _ & Hn).
  split; [exact Hc|]. apply Hn. discriminate.
Defined.

(** ** Planning a recomputation *)

(** C7.  The window size is the visible duration times the sample rate,
    divided by the pixel width of the timeline. *)
Theorem getSamplesPerPixel_formula (s : WaveformVis) :
  getSamplesPerPixel s = (visibleDuration s * sampleRate s) / width (base s).
Proof. reflexivity. Qed.

(** C8.  A recomputation hands the extractor, inline or through the
    worker, the midpoint of the domain of the layer's own [yScale] as
    default value. *)
Theorem downSample_defaultValue (minMax : Extractor) (s : WaveformVis) :
  let y := domain (yScale s) in
  let midpoint := (fst y + snd y) / 2 in
  (useWorker (params s) = false ->
   cache (after (downSample minMax s))
   = Some (minMax (data s) (plan_times s) (sampleRate s)
             (getSamplesPerPixel s) midpoint))
  /\ (useWorker (params s) = true -> resampler s = true ->
      posted (trace (downSample minMax s))
      = [DownSampleRequest (clock s) (plan_times s) (sampleRate s)
           (getSamplesPerPixel s) midpoint]).
Proof.
  cbv zeta. split.
  - intro Hw. rewrite downSample_inline by assumption. reflexivity.
  - intros Hw Hr. rewrite downSample_offloaded by assumption. reflexivity.
Qed.

Lemma downSample_defaultValue_witness :
  cache (after (downSample MinMaxExtractor.extract demo_layer))
  = Some (MinMaxExtractor.extract demo_buffer (plan_times demo_layer) 1
            (getSamplesPerPixel demo_layer) ((- (1) + 1) / 2))
  /\ posted (trace (downSample MinMaxExtractor.extract
                      (set_resampler true (set_useWorker true demo_layer))))
     = [DownSampleRequest 1000 (plan_times demo_layer) 1
          (getSamplesPerPixel demo_layer) ((- (1) + 1) / 2)].
Proof.
  split.
  - apply (proj1 (downSample_defaultValue MinMaxExtractor.extract demo_layer)).
    reflexivity.
  - apply (proj2 (downSample_defaultValue MinMaxExtractor.extract
                    (set_resampler true (set_useWorker true demo_layer))));
      reflexivity.
Defined.

(** ** The threshold gate of [xZoom] *)



(** ** Reuse and the index scale *)

(** The claim C5 as it is written fails: a view stored against [0, 10]
    and reused after the timeline moved to [5, 15] is drawn with
    [xxScale] still starting at 0, not at 5. *)
Lemma xZoom_reuse_does_not_rescale :
  ~ reuse_rescales MinMaxExtractor.extract demo_moved small_event demo_view.
Proof.
  unfold reuse_rescales. cbv zeta. intros (_ & Hlow & _).
  revert Hlow. vm_compute. discriminate.
Qed.

(** C5, amended.  A view stored while the timeline showed one range and
    reused, below the thresholds, after the timeline moved to another
    range is drawn unchanged and nothing is recomputed; [xxScale] is left
    as [setDownSample] built it, mapping [[0, view.length]] onto the range
    shown when the view was stored. *)
Theorem xZoom_reuse_keeps_xxScale (minMax : Extractor) (s : WaveformVis)
    (view : DownsampledView) (moved_to : Q * Q) (e : ZoomEvent) :
  let at_store := after (setDownSample (Some view) s) in
  let at_reuse := set_base_domain moved_to at_store in
  below_thresholds at_reuse e ->
  let o := xZoom minMax e at_reuse in
  completion o = Normal tt
  /\ trace o = [Render view]
  /\ cache (after o) = Some view
  /\ xxScale (after o)
     = {| domain := (0, inject_Z (Z.of_nat (List.length view)));
          range := domain (xScale (base s)) |}.
Proof.
  cbv zeta. intro Hb. rewrite xZoom_reuse by assumption.
  repeat split.
Qed.

Lemma xZoom_reuse_keeps_xxScale_witness :
  trace (xZoom MinMaxExtractor.extract small_event demo_moved)
  = [Render demo_view]
  /\ xxScale (after (xZoom MinMaxExtractor.extract small_event demo_moved))
     = {| domain := (0, 3); range := (0, 10) |}.
Proof.
  pose proof (xZoom_reuse_keeps_xxScale MinMaxExtractor.extract demo_layer
                demo_view (5, 15) small_event) as H.
  cbv zeta in H.
  destruct H as (_ & Ht & _ & Hx).
  - split; reflexivity.
  - split; [exact Ht | exact Hx].
Defined.

(** ** The two backends *)

Lemma onload_inline (minMax : Extractor) (s : WaveformVis) :
  useWorker (params s) = false ->
  onload minMax s =
  {| after := set_xxScale {| domain := (0, 1); range := (0, duration s) |} s;
     trace := []; completion := Normal tt |}.
Proof.
  intro Hw. unfold onload. rewrite bind_this, bind_assign.
  rewrite Hw. reflexivity.
Qed.

Lemma onload_offloaded (minMax : Extractor) (s : WaveformVis) :
  useWorker (params s) = true ->
  onload minMax s =
  {| after :=
       set_currentWorkerCallTime (Some 0%Z)
         (set_resampler true
            (set_xxScale {| domain := (0, 1); range := (0, duration s) |} s));
     trace := [PostMessage (Initialize (data s) minMax)];
     completion := Normal tt |}.
Proof.
  intro Hw. unfold onload. rewrite bind_this, bind_assign.
  rewrite Hw. reflexivity.
Qed.

(** The worker, once initialized, answers a request with what the
    extractor it received computes on the buffer it received. *)
Lemma worker_answer (minMax : Extractor) (buffer : SampleBuffer) (t : Z)
    (extractAtTimes : list Q) (sampleRate windowSize defaultValue : Q) :
  snd (ResamplerWorker.run ResamplerWorker.fresh
         [Initialize buffer minMax;
          DownSampleRequest t extractAtTimes sampleRate windowSize defaultValue])
  = [ {| cmd := "downSample"; time := t;
         downSampledView :=
           Some (minMax buffer extractAtTimes sampleRate windowSize defaultValue);
         msg := None |} ].
Proof. reflexivity. Qed.

Lemma recompute_cycle_inline (minMax : Extractor) (s : WaveformVis) :
  useWorker (params s) = false ->
  recompute_cycle minMax s
  = (stored (inline_view minMax s)
       (set_xxScale {| domain := (0, 1); range := (0, duration s) |} s),
     [ConsoleTime "downsample"; Render (inline_view minMax s)]).
Proof.
  intro Hw. unfold recompute_cycle.
  rewrite (onload_inline minMax s Hw). cbn [after trace].
  rewrite downSample_inline by exact Hw. reflexivity.
Qed.

Lemma recompute_cycle_offloaded (minMax : Extractor) (s : WaveformVis) :
  useWorker (params s) = true ->
  recompute_cycle minMax s
  = (stored (inline_view minMax s)
       (set_currentWorkerCallTime (Some 0%Z)
          (set_resampler true
             (set_xxScale {| domain := (0, 1); range := (0, duration s) |} s))),
     [PostMessage (Initialize (data s) minMax);
      ConsoleTime "downsample";
      PostMessage (DownSampleRequest (clock s) (plan_times s) (sampleRate s)
                     (getSamplesPerPixel s) (plan_defaultValue s));
      Render (inline_view minMax s)]).
Proof.
  intro Hw. unfold recompute_cycle.
  rewrite (onload_offloaded minMax s Hw). cbn [after trace].
  rewrite downSample_offloaded by (try exact Hw; reflexivity).
  reflexivity.
Qed.

(** C3.  Whatever the extractor, the buffer and the plan: the worker
    initialized by the layer answers a request with the very view the
    direct call computes, and a whole recomputation leaves the same view
    in the cache and on screen with either backend. *)
Theorem backends_agree (minMax : Extractor) :
  (forall (buffer : SampleBuffer) (extractAtTimes : list Q)
          (sampleRate windowSize defaultValue : Q) (t : Z),
      map downSampledView
        (snd (ResamplerWorker.run ResamplerWorker.fresh
                [Initialize buffer minMax;
                 DownSampleRequest t extractAtTimes sampleRate windowSize
                   defaultValue]))
      = [Some (minMax buffer extractAtTimes sampleRate windowSize defaultValue)])
  /\ (forall s : WaveformVis,
        let inline := recompute_cycle minMax (set_useWorker false s) in
        let offloaded := recompute_cycle minMax (set_useWorker true s) in
        cache (fst inline) = Some (inline_view minMax s)
        /\ cache (fst offloaded) = cache (fst inline)
        /\ rendered (snd offloaded) = rendered (snd inline)
        /\ xxScale (fst offloaded) = xxScale (fst inline)).
Proof.
  split.
  - intros. rewrite worker_answer. reflexivity.
  - intro s. cbv zeta.
    rewrite (recompute_cycle_inline minMax (set_useWorker false s) eq_refl).
    rewrite (recompute_cycle_offloaded minMax (set_useWorker true s) eq_refl).
    repeat split.
Qed.

(** ** The extractor *)

Lemma valid_samples_none (buffer : SampleBuffer) (js : list Z) :
  (forall j, In j js -> MinMaxExtractor.sample_at buffer j = None) ->
  MinMaxExtractor.valid_samples buffer js = [].
Proof.
  induction js as [|j js IH]; intro Hnone; [reflexivity|].
  simpl. rewrite (Hnone j (or_introl eq_refl)).
  apply IH. intros j' Hj'. apply Hnone. right. exact Hj'.
Qed.

(** A sample is there exactly at the indices inside the buffer. *)
Lemma sample_at_none (buffer : SampleBuffer) (j : Z) :
  MinMaxExtractor.sample_at buffer j = None
  <-> (j < 0 \/ Z.of_nat (List.length buffer) <= j)%Z.
Proof.
  unfold MinMaxExtractor.sample_at.
  destruct (j <? 0)%Z eqn:Hneg; simpl.
  - apply Z.ltb_lt in Hneg. split; auto.
  - apply Z.ltb_ge in Hneg.
    destruct (Z.of_nat (List.length buffer) <=? j)%Z eqn:Hhigh.
    + apply Z.leb_le in Hhigh. split; auto.
    + apply Z.leb_gt in Hhigh. rewrite nth_error_None. lia.
Qed.

(** C4.  The view has one entry per requested time instant, also for no
    instant at all, and the entry of a column whose window holds no valid
    sample is the pair (defaultValue, defaultValue). *)
Theorem extract_complete (buffer : SampleBuffer) (extractAtTimes : list Q)
    (sampleRate windowSize defaultValue : Q) :
  let view :=
    MinMaxExtractor.extract buffer extractAtTimes sampleRate windowSize
      defaultValue in
  List.length view = List.length extractAtTimes
  /\ (forall (k : nat) (t : Q),
        nth_error extractAtTimes k = Some t ->
        (forall j,
            In j (MinMaxExtractor.window_indices
                    (Math_round (t * sampleRate)) windowSize) ->
            MinMaxExtractor.sample_at buffer j = None) ->
        nth_error view k = Some (defaultValue, defaultValue)).
Proof.
  cbv zeta. unfold MinMaxExtractor.extract. split.
  - apply length_map.
  - intros k t Ht Hnone.
    rewrite nth_error_map, Ht. simpl.
    unfold MinMaxExtractor.column.
    rewrite (valid_samples_none buffer _ Hnone). reflexivity.
Qed.

Lemma extract_complete_witness :
  List.length (MinMaxExtractor.extract demo_buffer [0; 10; - (4)] 1 4 (7 # 1))
  = 3%nat
  /\ nth_error (MinMaxExtractor.extract demo_buffer [0; 10; - (4)] 1 4 (7 # 1)) 1
     = Some (7 # 1, 7 # 1)
  /\ List.length (MinMaxExtractor.extract demo_buffer [] 1 4 (7 # 1)) = 0%nat.
Proof.
  pose proof (extract_complete demo_buffer [0; 10; - (4)] 1 4 (7 # 1)) as H.
  cbv zeta in H. destruct H as [Hlen Hdef].
  split; [exact Hlen|]. split.
  - apply (Hdef 1%nat 10 eq_refl).
    intros j Hj. apply sample_at_none. right.
    vm_compute in Hj.
    destruct Hj as [<-|[<-|[<-|[<-|[]]]]]; vm_compute; discriminate.
  - apply (proj1 (extract_complete demo_buffer [] 1 4 (7 # 1))).
Defined.

(** * Further properties of [WaveformVis] *)

(** ** Loading, then recomputing *)


Lemma downSample_offloaded_state (minMax : Extractor) (s : WaveformVis) :
  useWorker (params s) = true ->
  after (downSample minMax s) = s
  /\ rendered (trace (downSample minMax s)) = [].
Proof.
  intro Hw. destruct (resampler s) eqn:Hr.
  - rewrite downSample_offloaded by assumption. split; reflexivity.
  - rewrite downSample_no_worker by assumption. split; reflexivity.
Qed.

(** X2.  With the worker switched on, [downSample] leaves the instance as
    it is and draws nothing: cache and [xxScale] only change when an
    answer comes back. *)
Theorem downSample_offloaded_defers (minMax : Extractor) (s : WaveformVis) :
  useWorker (params s) = true ->
  after (downSample minMax s) = s
  /\ rendered (trace (downSample minMax s)) = [].
Proof. apply downSample_offloaded_state. Qed.

Lemma downSample_offloaded_defers_witness :
  after (downSample MinMaxExtractor.extract demo_pending) = demo_pending
  /\ rendered (trace (downSample MinMaxExtractor.extract demo_pending)) = [].
Proof.
  apply (downSample_offloaded_defers MinMaxExtractor.extract demo_pending).
  reflexivity.
Defined.

(** X3.  An answer that says [downSample] but carries no view makes the
    handler throw a TypeError after [__isProcessing] was reset; the cache,
    [xxScale] and the screen are untouched. *)
Theorem resamplerResponse_without_view (r : Response) (s : WaveformVis) :
  cmd r = "downSample"%string ->
  downSampledView r = None ->
  let o := resamplerResponse r s in
  completion o = Throw (TypeError "length")
  /\ trace o = []
  /\ cache (after o) = cache s
  /\ xxScale (after o) = xxScale s
  /\ isProcessing (after o) = Some false.
Proof.
  intros Hc Hv. cbv zeta. unfold resamplerResponse.
  rewrite Hc, Hv. repeat split.
Qed.

Lemma resamplerResponse_without_view_witness :
  completion
    (resamplerResponse
       {| cmd := "downSample"; time := 3; downSampledView := None; msg := None |}
       demo_stored)
  = Throw (TypeError "length")
  /\ cache (after (resamplerResponse
                     {| cmd := "downSample"; time := 3;
                        downSampledView := None; msg := None |}
                     demo_stored))
     = Some demo_view.
Proof.
  pose proof (resamplerResponse_without_view
                {| cmd := "downSample"; time := 3; downSampledView := None;
                   msg := None |} demo_stored eq_refl eq_refl) as H.
  cbv zeta in H. destruct H as (Hc & _ & Hcache & _).
  split; [exact Hc | exact Hcache].
Defined.

(** X4.  Answers that carry [downSample] and a view are all applied, in
    arrival order, whatever their identifiers: each one is rendered and
    the view of the last one to arrive is the one left in the cache. *)
Theorem deliver_last_arrived_wins (rs : list Response) (s : WaveformVis) :
  Forall (fun r => cmd r = "downSample"%string /\ downSampledView r <> None) rs ->
  rendered (snd (deliver rs s)) = carried_views rs
  /\ cache (fst (deliver rs s)) = last (map downSampledView rs) (cache s).
Proof.
  intro Hall. apply (deliver_applies_all rs Hall s).
Qed.

Lemma deliver_last_arrived_wins_witness :
  rendered (snd (deliver [answer 9; answer 2] demo_layer))
  = [[(9, 9)]; [(2, 2)]]
  /\ cache (fst (deliver [answer 9; answer 2] demo_layer)) = Some [(2, 2)].
Proof.
  apply (deliver_last_arrived_wins [answer 9; answer 2] demo_layer).
  repeat constructor; discriminate.
Defined.

(** ** The extraction plan *)

Lemma plan_times_length (s : WaveformVis) :
  List.length (plan_times s)
  = Z.to_nat (Qceiling (snd (range (xScale (base s)))
                        - fst (range (xScale (base s))))).
Proof.
  unfold plan_times, loop_indices. rewrite !length_map, length_seq. reflexivity.
Qed.

Lemma plan_times_length_width (s : WaveformVis) (n : nat) :
  snd (range (xScale (base s))) - fst (range (xScale (base s)))
  == inject_Z (Z.of_nat n) ->
  List.length (plan_times s) = n.
Proof.
  intro Hw. rewrite plan_times_length.
  rewrite (Qceiling_comp _ _ Hw), Qceiling_Z. apply Nat2Z.id.
Qed.

(** X5.  [downSample] plans one time instant per pixel: a pixel range of
    whole width [n] gives [n] instants, and a range that is empty or
    reversed gives none. *)
Theorem plan_times_one_per_pixel (s : WaveformVis) :
  let r := range (xScale (base s)) in
  (forall n : nat,
      snd r - fst r == inject_Z (Z.of_nat n) ->
      List.length (plan_times s) = n)
  /\ (snd r - fst r <= 0 -> plan_times s = []).
Proof.
  cbv zeta. split.
  - intros n Hw. apply plan_times_length_width, Hw.
  - intro Hle. apply length_zero_iff_nil. rewrite plan_times_length.
    apply Qceiling_resp_le in Hle. change (Qceiling 0) with 0%Z in Hle. lia.
Qed.

Lemma plan_times_one_per_pixel_witness :
  List.length (plan_times demo_layer) = 4%nat
  /\ plan_times (constructor {| xScale := {| domain := (0, 10);
                                             range := (3, 3) |};
                                width := 0 |}
                   demo_buffer {| domain := (0, 1); range := (0, 1) |}
                   10 0) = [].
Proof.
  split.
  - apply (proj1 (plan_times_one_per_pixel demo_layer) 4%nat). reflexivity.
  - apply (proj2 (plan_times_one_per_pixel _)). discriminate.
Defined.

(** X6.  When the pixel range starts at 0, every planned instant lies in
    the time range the timeline shows: at or after its start, and before
    its end. *)
Theorem plan_times_inside_domain (s : WaveformVis) (t : Q) :
  let d := domain (xScale (base s)) in
  let r := range (xScale (base s)) in
  fst r == 0 ->
  fst d < snd d ->
  In t (plan_times s) ->
  fst d <= t /\ t < snd d.
Proof.
  cbv zeta. intros Hr0 Hd Hin.
  unfold plan_times in Hin. apply in_map_iff in Hin.
  destruct Hin as (p & <- & Hp). apply loop_indices_spec in Hp.
  destruct Hp as [Hp0 Hpw].
  unfold scale_invert.
  set (d0 := fst (domain (xScale (base s)))) in *.
  set (d1 := snd (domain (xScale (base s)))) in *.
  set (r0 := fst (range (xScale (base s)))) in *.
  set (r1 := snd (range (xScale (base s)))) in *.
  set (w := r1 - r0) in *.
  assert (Hp0' : 0 <= inject_Z p) by (rewrite Zle_Qle in Hp0; exact Hp0).
  assert (Hw : 0 < w) by (eapply Qle_lt_trans; eassumption).
  assert (Hq0 : 0 <= (inject_Z p - r0) / w).
  { apply Qle_shift_div_l; [exact Hw|]. rewrite Hr0.
    setoid_replace (0 * w) with 0 by ring.
    setoid_replace (inject_Z p - 0) with (inject_Z p) by ring. exact Hp0'. }
  assert (Hq1 : (inject_Z p - r0) / w < 1).
  { apply Qlt_shift_div_r; [exact Hw|]. rewrite Hr0.
    setoid_replace (inject_Z p - 0) with (inject_Z p) by ring.
    setoid_replace (1 * w) with w by ring. exact Hpw. }
  assert (Hspan : 0 < d1 - d0).
  { setoid_replace 0 with (d0 - d0) by ring.
    apply Qplus_lt_l. exact Hd. }
  split.
  - setoid_replace d0 with (d0 + 0) at 1 by ring.
    apply Qplus_le_r. apply Qmult_le_0_compat; [exact Hq0|].
    apply Qlt_le_weak, Hspan.
  - setoid_replace d1 with (d0 + 1 * (d1 - d0)) at 2 by ring.
    apply Qplus_lt_r. apply Qmult_lt_compat_r; assumption.
Qed.

Lemma plan_times_inside_domain_witness :
  0 <= 30 # 4 /\ 30 # 4 < 10.
Proof.
  apply (plan_times_inside_domain demo_layer (30 # 4)).
  - reflexivity.
  - reflexivity.
  - vm_compute. right. right. right. left. reflexivity.
Defined.

(** X8.  With an extractor that answers one pair per instant, an inline
    recomputation over a pixel range of whole width [n] caches a view of
    [n] pairs and sets the domain of [xxScale] to [[0, n]]. *)
Theorem downSample_inline_view_width (minMax : Extractor) (s : WaveformVis)
    (n : nat) :
  (forall buffer times rate window default,
      List.length (minMax buffer times rate window default)
      = List.length times) ->
  useWorker (params s) = false ->
  snd (range (xScale (base s))) - fst (range (xScale (base s)))
  == inject_Z (Z.of_nat n) ->
  let o := downSample minMax s in
  exists view,
    cache (after o) = Some view
    /\ List.length view = n
    /\ domain (xxScale (after o)) = (0, inject_Z (Z.of_nat n)).
Proof.
  intros Hlen Hw Hn. cbv zeta. rewrite downSample_inline by exact Hw.
  exists (inline_view minMax s).
  assert (Hv : List.length (inline_view minMax s) = n).
  { unfold inline_view. rewrite Hlen. apply plan_times_length_width, Hn. }
  cbn [after]. unfold stored. simpl. rewrite Hv. auto.
Qed.

Lemma downSample_inline_view_width_witness :
  exists view,
    cache (after (downSample MinMaxExtractor.extract demo_layer)) = Some view
    /\ List.length view = 4%nat
    /\ domain (xxScale (after (downSample MinMaxExtractor.extract demo_layer)))
       = (0, inject_Z (Z.of_nat 4)).
Proof.
  apply (downSample_inline_view_width MinMaxExtractor.extract demo_layer 4).
  - intros. unfold MinMaxExtractor.extract. apply length_map.
  - reflexivity.
  - reflexivity.
Defined.

(** ** Repeating a gesture *)

Lemma below_thresholds_at_reference (s : WaveformVis) (e : ZoomEvent) :
  0 < triggerUpdateZoomDelta (params s) ->
  0 < triggerUpdateDragDelta (params s) ->
  currentZoomFactor s = factor e ->
  currentDragDeltaX s = delta_x e ->
  below_thresholds s e.
Proof.
  intros Hz Hd Hf Hx. unfold below_thresholds. rewrite Hf, Hx.
  assert (Hzero : forall x, Qabs (x - x) == 0).
  { intro x. setoid_replace (x - x) with 0 by ring. reflexivity. }
  rewrite !Hzero. split; assumption.
Qed.

(** X9.  With the inline backend and positive thresholds, the same event
    handled a second time recomputes nothing; and when the first call
    returned, it left a cached view, which the second call draws. *)
Theorem xZoom_repeated_reuses (minMax : Extractor) (s : WaveformVis)
    (e : ZoomEvent) :
  useWorker (params s) = false ->
  0 < triggerUpdateZoomDelta (params s) ->
  0 < triggerUpdateDragDelta (params s) ->
  let first := xZoom minMax e s in
  let second := xZoom minMax e (after first) in
  ~ recomputes (trace second)
  /\ (completion first = Normal tt ->
      exists view,
        cache (after first) = Some view
        /\ second = {| after := after first; trace := [Render view];
                       completion := Normal tt |}).
Proof.
  intros Hw Hz Hd. cbv zeta.
  assert (Hstored : forall s1 : WaveformVis,
             useWorker (params s1) = false ->
             below_thresholds (stored (inline_view minMax s1) s1) e ->
             let first := downSample minMax s1 in
             ~ recomputes (trace (xZoom minMax e (after first)))
             /\ exists view,
                  cache (after first) = Some view
                  /\ xZoom minMax e (after first)
                     = {| after := after first; trace := [Render view];
                          completion := Normal tt |}).
  { intros s1 Hw1 Hb1. cbv zeta.
    rewrite (downSample_inline minMax s1 Hw1). cbn [after].
    rewrite (xZoom_reuse minMax _ e Hb1). split.
    - apply reuse_outcome_quiet.
    - exists (inline_view minMax s1). split; reflexivity. }
  destruct (Qlt_le_dec (Qabs (currentZoomFactor s - factor e))
              (triggerUpdateZoomDelta (params s))) as [Hbz|Hbz];
    [destruct (Qlt_le_dec (Qabs (currentDragDeltaX s - delta_x e))
                 (triggerUpdateDragDelta (params s))) as [Hbd|Hbd]|].
  - assert (Hb : below_thresholds s e) by (split; assumption).
    rewrite (xZoom_reuse minMax s e Hb).
    assert (Hafter : after (reuse_outcome s) = s)
      by (unfold reuse_outcome; destruct (cache s); reflexivity).
    rewrite Hafter, (xZoom_reuse minMax s e Hb). split.
    + apply reuse_outcome_quiet.
    + unfold reuse_outcome. destruct (cache s) as [view|]; [|discriminate].
      intros _. exists view. split; reflexivity.
  - assert (Hb : ~ below_thresholds s e).
    { intros [_ H]. apply (Qlt_not_le _ _ H Hbd). }
    rewrite (xZoom_recompute minMax s e Hb).
    destruct (Hstored (set_currentDragDeltaX (delta_x e)
                         (set_currentZoomFactor (factor e) s)) Hw) as [Hq Hv].
    + apply below_thresholds_at_reference; auto.
    + split; [exact Hq | intros _; exact Hv].
  - assert (Hb : ~ below_thresholds s e).
    { intros [H _]. apply (Qlt_not_le _ _ H Hbz). }
    rewrite (xZoom_recompute minMax s e Hb).
    destruct (Hstored (set_currentDragDeltaX (delta_x e)
                         (set_currentZoomFactor (factor e) s)) Hw) as [Hq Hv].
    + apply below_thresholds_at_reference; auto.
    + split; [exact Hq | intros _; exact Hv].
Qed.

Lemma xZoom_repeated_reuses_witness :
  ~ recomputes
      (trace (xZoom MinMaxExtractor.extract large_event
                (after (xZoom MinMaxExtractor.extract large_event demo_layer)))).
Proof.
  apply (xZoom_repeated_reuses MinMaxExtractor.extract demo_layer large_event);
    reflexivity.
Defined.

(** X10.  The thresholds are measured from the last recomputation, not
    from the last event: below the thresholds [xZoom] leaves the reference
    factor and drag where they were, otherwise it sets them to the
    event's. *)
Theorem xZoom_reference_moves_only_on_recompute (minMax : Extractor)
    (s : WaveformVis) (e : ZoomEvent) :
  let s' := after (xZoom minMax e s) in
  (below_thresholds s e ->
   currentZoomFactor s' = currentZoomFactor s
   /\ currentDragDeltaX s' = currentDragDeltaX s)
  /\ (~ below_thresholds s e ->
      currentZoomFactor s' = factor e /\ currentDragDeltaX s' = delta_x e).
Proof.
  cbv zeta. split; intro Hb.
  - rewrite (xZoom_reuse minMax s e Hb). unfold reuse_outcome.
    destruct (cache s); split; reflexivity.
  - rewrite (xZoom_recompute minMax s e Hb).
    set (s1 := set_currentDragDeltaX (delta_x e)
                 (set_currentZoomFactor (factor e) s)).
    destruct (useWorker (params s1)) eqn:Hw.
    + rewrite (proj1 (downSample_offloaded_state minMax s1 Hw)). auto.
    + rewrite downSample_inline by exact Hw. split; reflexivity.
Qed.

Lemma xZoom_reference_moves_only_on_recompute_witness :
  currentZoomFactor (after (xZoom MinMaxExtractor.extract small_event demo_stored))
  = 1
  /\ currentZoomFactor
       (after (xZoom MinMaxExtractor.extract large_event demo_stored))
     = 12 # 10.
Proof.
  split.
  - apply (proj1 (xZoom_reference_moves_only_on_recompute
                    MinMaxExtractor.extract demo_stored small_event)).
    split; reflexivity.
  - apply (proj2 (xZoom_reference_moves_only_on_recompute
                    MinMaxExtractor.extract demo_stored large_event)).
    intros [H _]. revert H. vm_compute. discriminate.
Defined.

(** * Properties of [BreakpointBehavior.edit] *)

Lemma Qltb_ge (a b : Q) : Qltb a b = false -> b <= a.
Proof. unfold Qltb, Qle. intro H. apply Z.ltb_ge in H. exact H. Qed.

Module BreakpointFacts.
Import BreakpointBehavior.

Lemma insert_In (a b : Q) (l : list Q) :
  In b (insert a l) <-> b = a \/ In b l.
Proof.
  induction l as [|c l IH]; simpl.
  - intuition.
  - destruct (Qltb c a); simpl; rewrite ?IH; intuition.
Qed.

Lemma sort_In (b : Q) (l : list Q) : In b (sort l) <-> In b l.
Proof.
  induction l as [|a l IH]; simpl; [reflexivity|].
  rewrite insert_In, IH. intuition.
Qed.

Lemma insert_Sorted (a : Q) (l : list Q) :
  Sorted Qle l -> Sorted Qle (insert a l).
Proof.
  induction l as [|b l IH]; intro Hs; simpl.
  - repeat constructor.
  - destruct (Qltb b a) eqn:Hba.
    + apply Qltb_lt, Qlt_le_weak in Hba.
      inversion Hs as [|? ? Hs' Hhd]; subst.
      constructor; [apply IH, Hs'|].
      destruct l as [|c l]; simpl.
      * constructor. exact Hba.
      * destruct (Qltb c a); constructor; [|exact Hba].
        inversion Hhd; assumption.
    + apply Qltb_ge in Hba. constructor; [exact Hs|]. constructor. exact Hba.
Qed.

Lemma sort_StronglySorted (l : list Q) : StronglySorted Qle (sort l).
Proof.
  apply Sorted_StronglySorted.
  - intros x y z. apply Qle_trans.
  - induction l as [|a l IH]; simpl; [constructor | apply insert_Sorted, IH].
Qed.

Lemma StronglySorted_nth (l : list Q) (i j : nat) (a b : Q) :
  StronglySorted Qle l ->
  (i <= j)%nat ->
  nth_error l i = Some a -> nth_error l j = Some b -> a <= b.
Proof.
  intro Hs. revert i j. induction Hs as [|c l Hs IH Hall]; intros i j Hij Hi Hj.
  - destruct i; discriminate.
  - destruct i as [|i], j as [|j]; simpl in *.
    + injection Hi as <-. injection Hj as <-. apply Qle_refl.
    + injection Hi as <-. rewrite Forall_forall in Hall.
      apply Hall. eapply nth_error_In, Hj.
    + lia.
    + apply (IH i j); [lia | assumption | assumption].
Qed.

Lemma indexOf_found (l : list Q) (x : Q) :
  (0 <= indexOf l x)%Z ->
  exists a, nth_error l (Z.to_nat (indexOf l x)) = Some a /\ a == x.
Proof.
  induction l as [|b l IH]; simpl; [lia|].
  destruct (Qeq_bool b x) eqn:Hb.
  - intros _. exists b. split; [reflexivity | apply Qeq_bool_iff, Hb].
  - destruct (indexOf l x <? 0)%Z eqn:Hneg; [lia|].
    apply Z.ltb_ge in Hneg. intros _.
    destruct (IH Hneg) as (a & Ha & Hax). exists a. split; [|exact Hax].
    replace (Z.to_nat (indexOf l x + 1)) with (S (Z.to_nat (indexOf l x))) by lia.
    exact Ha.
Qed.

Lemma indexOf_In (l : list Q) (x : Q) :
  In x l -> (0 <= indexOf l x)%Z.
Proof.
  induction l as [|b l IH]; simpl; [contradiction|].
  intros [->|Hin].
  - rewrite (proj2 (Qeq_bool_iff x x) (Qeq_refl x)). lia.
  - destruct (Qeq_bool b x); [lia|].
    specialize (IH Hin). destruct (indexOf l x <? 0)%Z eqn:Hneg; [|lia].
    apply Z.ltb_lt in Hneg. lia.
Qed.

(** X11.  Vertically the dragged breakpoint stays inside the layer: for
    a layer of height 0 or more, the ordinate that [edit] hands to
    [yScale.invert] is between 0 and the height of the layer, whatever
    [dy]. *)
Theorem edit_stays_inside_layer (ctx : RenderingContext) (data : list Datum)
    (datum : Datum) (dx dy : Q) :
  0 <= height ctx ->
  cy (edit ctx data datum dx dy)
  = scale_invert (yScale ctx) (lockedY ctx datum dy)
  /\ 0 <= lockedY ctx datum dy
  /\ lockedY ctx datum dy <= height ctx.
Proof.
  intro Hh. split; [reflexivity|]. unfold lockedY. cbv zeta.
  set (targetY := scale_apply (yScale ctx) (cy datum) - dy).
  destruct (Qltb targetY 0) eqn:Hlow.
  - split; [apply Qle_refl | exact Hh].
  - apply Qltb_ge in Hlow.
    destruct (Qltb (height ctx) targetY) eqn:Hhigh.
    + split; [exact Hh | apply Qle_refl].
    + apply Qltb_ge in Hhigh. split; assumption.
Qed.

(** X12.  With more than two breakpoints, the dragged one never passes
    another: whatever [dx], a breakpoint drawn to its left is still at or
    to the left of the target abscissa, and one drawn to its right still
    at or to the right. *)
Theorem edit_keeps_order (ctx : RenderingContext) (data : list Datum)
    (datum other : Datum) (dx : Q) :
  (2 < List.length data)%nat ->
  In datum data ->
  In other data ->
  let x := scale_apply (xScale ctx) (cx datum) in
  let x_other := scale_apply (xScale ctx) (cx other) in
  let targetX := lockedX ctx data datum dx in
  (x_other < x -> x_other <= targetX)
  /\ (x < x_other -> targetX <= x_other).
Proof.
  intros Hlen Hdatum Hother. cbv zeta.
  set (x := scale_apply (xScale ctx) (cx datum)).
  set (b := scale_apply (xScale ctx) (cx other)).
  pose proof (sort_StronglySorted
                (map (fun d => scale_apply (xScale ctx) (cx d)) data)) as Hs.
  fold (positions ctx data) in Hs.
  assert (Hx : In x (positions ctx data)).
  { apply sort_In, in_map_iff. exists datum. split; [reflexivity|assumption]. }
  assert (Hb : In b (positions ctx data)).
  { apply sort_In, in_map_iff. exists other. split; [reflexivity|assumption]. }
  pose proof (indexOf_In _ _ Hx) as Hi0.
  destruct (indexOf_found _ _ Hi0) as (a & Ha & Hax).
  destruct (In_nth_error _ _ Hb) as (j & Hj).
  unfold lockedX. cbv zeta. fold x.
  apply Nat.ltb_lt in Hlen. rewrite Hlen.
  set (xMap := positions ctx data) in *.
  set (index := indexOf xMap x) in *.
  set (i := Z.to_nat index) in *.
  split; intro Hlt.
  - (* [other] is to the left: it sits before [index] in the map *)
    assert (Hji : (j < i)%nat).
    { destruct (Nat.lt_ge_cases j i) as [H|H]; [exact H|]. exfalso.
      pose proof (StronglySorted_nth _ _ _ _ _ Hs H Ha Hj) as Hab.
      apply (Qlt_not_le _ _ Hlt). rewrite <- Hax. exact Hab. }
    destruct (nth_error xMap (i - 1)) as [p|] eqn:Hp;
      [|apply nth_error_None in Hp;
        assert (i < List.length xMap)%nat
          by (apply nth_error_Some; rewrite Ha; discriminate); lia].
    assert (Hprev : at_index xMap (index - 1) = Some p).
    { unfold at_index. replace (index - 1 <? 0)%Z with false
        by (symmetry; apply Z.ltb_ge; lia).
      replace (Z.to_nat (index - 1)) with (i - 1)%nat by lia. exact Hp. }
    assert (Hbp : b <= p)
      by (apply (StronglySorted_nth _ j (i - 1)%nat _ _ Hs); [lia|assumption..]).
    assert (Hpx : p <= x).
    { rewrite <- Hax.
      apply (StronglySorted_nth _ (i - 1)%nat i _ _ Hs); [lia|assumption..]. }
    rewrite Hprev. simpl.
    destruct (Qltb (x + dx) p) eqn:Hlock; simpl.
    + eapply Qle_trans; eassumption.
    + apply Qltb_ge in Hlock.
      destruct (gt_maybe (x + dx) (at_index xMap (index + 1)));
        eapply Qle_trans; eassumption.
  - (* [other] is to the right: it sits after [index] in the map *)
    assert (Hij : (i < j)%nat).
    { destruct (Nat.lt_ge_cases i j) as [H|H]; [exact H|]. exfalso.
      pose proof (StronglySorted_nth _ _ _ _ _ Hs H Hj Ha) as Hba.
      apply (Qlt_not_le _ _ Hlt). rewrite <- Hax. exact Hba. }
    destruct (nth_error xMap (S i)) as [q|] eqn:Hq;
      [|apply nth_error_None in Hq;
        assert (j < List.length xMap)%nat
          by (apply nth_error_Some; rewrite Hj; discriminate); lia].
    assert (Hnext : at_index xMap (index + 1) = Some q).
    { unfold at_index. replace (index + 1 <? 0)%Z with false
        by (symmetry; apply Z.ltb_ge; lia).
      replace (Z.to_nat (index + 1)) with (S i) by lia. exact Hq. }
    assert (Hqb : q <= b)
      by (apply (StronglySorted_nth _ (S i) j _ _ Hs); [lia|assumption..]).
    assert (Hxq : x <= q).
    { rewrite <- Hax.
      apply (StronglySorted_nth _ i (S i) _ _ Hs); [lia|assumption..]. }
    rewrite Hnext.
    destruct (lt_maybe (x + dx) (at_index xMap (index - 1))); simpl.
    + eapply Qle_trans; eassumption.
    + destruct (Qltb q (x + dx)) eqn:Hlock.
      * eapply Qle_trans; eassumption.
      * apply Qltb_ge in Hlock. eapply Qle_trans; eassumption.
Qed.

Lemma edit_stays_inside_layer_witness :
  0 <= lockedY demo_ctx demo_middle (- (500))
  /\ lockedY demo_ctx demo_middle (- (500)) <= 100.
Proof.
  apply (edit_stays_inside_layer demo_ctx demo_data demo_middle 0 (- (500))).
  discriminate.
Defined.

Lemma edit_keeps_order_witness :
  100 <= lockedX demo_ctx demo_data demo_middle (- (350)).
Proof.
  pose proof (edit_keeps_order demo_ctx demo_data demo_middle demo_first
                (- (350))) as H.
  cbv zeta in H. destruct H as [Hleft _].
  - vm_compute. lia.
  - right. left. reflexivity.
  - left. reflexivity.
  - eapply Qle_trans; [|apply Hleft; reflexivity].
    discriminate.
Defined.

Lemma Qltb_false_of_le (a b : Q) : b <= a -> Qltb a b = false.
Proof. unfold Qltb, Qle. intro H. apply Z.ltb_ge. exact H. Qed.

Lemma lockedX_null (ctx : RenderingContext) (data : list Datum) (datum : Datum) :
  lockedX ctx data datum 0 == scale_apply (xScale ctx) (cx datum).
Proof.
  unfold lockedX. cbv zeta.
  destruct (2 <? List.length data)%nat;
    [destruct (_ || _)|]; try reflexivity; ring.
Qed.

Lemma lockedY_null (ctx : RenderingContext) (datum : Datum) :
  0 <= scale_apply (yScale ctx) (cy datum) ->
  scale_apply (yScale ctx) (cy datum) <= height ctx ->
  lockedY ctx datum 0 == scale_apply (yScale ctx) (cy datum).
Proof.
  intros H0 Hh. unfold lockedY. cbv zeta.
  set (y := scale_apply (yScale ctx) (cy datum)) in *.
  assert (Hy : y - 0 == y) by ring.
  rewrite (Qltb_false_of_le (y - 0) 0) by (rewrite Hy; exact H0).
  rewrite (Qltb_false_of_le (height ctx) (y - 0)) by (rewrite Hy; exact Hh).
  exact Hy.
Qed.

(** X13.  A drag by nothing asks for the place the breakpoint is drawn
    at: with [dx = 0] the abscissa handed to [xScale.invert] is the
    breakpoint's own, whatever the other breakpoints, and with [dy = 0]
    the ordinate handed to [yScale.invert] is its own as long as it is
    drawn inside the layer. *)
Theorem edit_null_drag (ctx : RenderingContext) (data : list Datum)
    (datum : Datum) :
  lockedX ctx data datum 0 == scale_apply (xScale ctx) (cx datum)
  /\ (0 <= scale_apply (yScale ctx) (cy datum) ->
      scale_apply (yScale ctx) (cy datum) <= height ctx ->
      lockedY ctx datum 0 == scale_apply (yScale ctx) (cy datum)).
Proof.
  split.
  - apply lockedX_null.
  - apply lockedY_null.
Qed.

Lemma edit_null_drag_witness :
  lockedX demo_ctx demo_data demo_middle 0 == 400
  /\ lockedY demo_ctx demo_middle 0 == 75.
Proof.
  destruct (edit_null_drag demo_ctx demo_data demo_middle) as [Hx Hy].
  split.
  - rewrite Hx. reflexivity.
  - rewrite Hy; [reflexivity | discriminate | discriminate].
Defined.

(** X14.  Horizontally nothing holds the first breakpoint back: the one
    drawn leftmost follows any drag to the left, however far, with no
    lock at the edge of the layer. *)
Theorem edit_leftmost_is_free (ctx : RenderingContext) (data : list Datum)
    (datum : Datum) (dx : Q) :
  In datum data ->
  (forall other, In other data ->
     scale_apply (xScale ctx) (cx datum) <= scale_apply (xScale ctx) (cx other)) ->
  dx <= 0 ->
  lockedX ctx data datum dx = scale_apply (xScale ctx) (cx datum) + dx.
Proof.
  intros Hin Hmin Hdx. unfold lockedX. cbv zeta.
  set (x := scale_apply (xScale ctx) (cx datum)) in *.
  destruct (2 <? List.length data)%nat; [|reflexivity].
  pose proof (sort_StronglySorted
                (map (fun d => scale_apply (xScale ctx) (cx d)) data)) as Hs.
  fold (positions ctx data) in Hs.
  assert (Hx : In x (positions ctx data)).
  { apply sort_In, in_map_iff. exists datum. split; [reflexivity|assumption]. }
  assert (Hall : forall b, In b (positions ctx data) -> x <= b).
  { intros b Hb. apply sort_In, in_map_iff in Hb.
    destruct Hb as (d & <- & Hd). apply Hmin, Hd. }
  destruct (positions ctx data) as [|h rest] eqn:Hpos; [contradiction|].
  destruct (In_nth_error _ _ Hx) as (j & Hj).
  assert (Hhx : h == x).
  { apply Qle_antisym.
    - apply (StronglySorted_nth _ 0%nat j _ _ Hs); [lia|reflexivity|exact Hj].
    - apply Hall. left. reflexivity. }
  simpl indexOf. rewrite (proj2 (Qeq_bool_iff h x) Hhx).
  change (at_index (h :: rest) (0 - 1)) with (@None Q).
  assert (Hleft : x + dx <= x).
  { setoid_replace x with (x + 0) at 2 by ring. apply Qplus_le_r, Hdx. }
  destruct rest as [|q rest']; [reflexivity|].
  change (at_index (h :: q :: rest') (0 + 1)) with (Some q).
  simpl. rewrite Qltb_false_of_le; [reflexivity|].
  eapply Qle_trans; [exact Hleft|]. apply Hall. right. left. reflexivity.
Qed.

Lemma edit_leftmost_is_free_witness :
  lockedX demo_ctx demo_data demo_first (- (5000))
  = scale_apply (xScale demo_ctx) (cx demo_first) + - (5000).
Proof.
  apply (edit_leftmost_is_free demo_ctx demo_data demo_first (- (5000))).
  - left. reflexivity.
  - intros other [<-|[<-|[<-|[]]]]; discriminate.
  - discriminate.
Defined.

End BreakpointFacts.

(** * Properties of plain objects *)

Module JSObjectFacts.
Import JSObject.

Lemma own_set {V} (o : t V) (k k' : string) (v : V) :
  own (set o k v) k' = if String.eqb k k' then Some v else own o k'.
Proof.
  induction o as [|[k0 v0] o IH]; simpl.
  - reflexivity.
  - destruct (String.eqb_spec k0 k) as [->|Hk]; simpl.
    + destruct (String.eqb k k'); reflexivity.
    + rewrite IH. destruct (String.eqb_spec k0 k') as [->|Hk'].
      * destruct (String.eqb_spec k k'); [congruence|reflexivity].
      * reflexivity.
Qed.

Lemma own_delete {V} (o : t V) (k k' : string) :
  own (delete o k) k' = if String.eqb k k' then None else own o k'.
Proof.
  induction o as [|[k0 v0] o IH]; simpl.
  - destruct (String.eqb k k'); reflexivity.
  - destruct (String.eqb_spec k0 k) as [->|Hk]; simpl.
    + rewrite IH. destruct (String.eqb k k'); reflexivity.
    + rewrite IH. destruct (String.eqb_spec k0 k') as [->|Hk'].
      * destruct (String.eqb_spec k k'); [congruence|reflexivity].
      * reflexivity.
Qed.

Lemma get_set {V} (o : t V) (k k' : string) (v : V) :
  get (set o k v) k' = if String.eqb k k' then Own v else get o k'.
Proof.
  unfold get. rewrite own_set. destruct (String.eqb k k'); reflexivity.
Qed.

Lemma own_not_key {V} (o : t V) (k : string) :
  ~ In k (keys o) -> own o k = None.
Proof.
  unfold keys. rewrite nodup_In.
  induction o as [|[k0 v0] o IH]; simpl; [reflexivity|].
  intro Hn. destruct (String.eqb_spec k0 k) as [->|Hk].
  - exfalso. apply Hn. left. reflexivity.
  - apply IH. intro Hin. apply Hn. right. exact Hin.
Qed.

Lemma inherited_In (k : string) :
  In k prototype_keys -> inherited k = true.
Proof.
  intro Hin. unfold inherited. apply existsb_exists.
  exists k. split; [exact Hin | apply String.eqb_refl].
Qed.

End JSObjectFacts.

(** * Properties of [Timeline] *)

Module TimelineFacts.
Import Timeline.

Lemma Track_eqb_eq (a b : Track) : Track_eqb a b = true <-> a = b.
Proof.
  destruct a as [n|n], b as [m|m]; simpl; rewrite ?Nat.eqb_eq;
    split; intro H; try discriminate; congruence.
Qed.

Lemma listed_iff (track : Track) (ts : list Track) :
  existsb (Track_eqb track) ts = true <-> In track ts.
Proof.
  rewrite existsb_exists. split.
  - intros (x & Hin & Heq). apply Track_eqb_eq in Heq. subst. exact Hin.
  - intro Hin. exists track. split; [exact Hin | apply Track_eqb_eq; reflexivity].
Qed.

Lemma not_listed (track : Track) (ts : list Track) :
  ~ In track ts -> existsb (Track_eqb track) ts = false.
Proof.
  intro Hn. destruct (existsb (Track_eqb track) ts) eqn:He; [|reflexivity].
  apply listed_iff in He. contradiction.
Qed.

Lemma new_track_not_listed (tl : t) :
  counter_ahead tl -> ~ In (Created (created tl)) (_tracks tl).
Proof.
  intros Hc Hin. apply Hc in Hin. lia.
Qed.

Lemma add_new (track : Track) (tl : t) :
  ~ In track (_tracks tl) ->
  add track tl =
  {| after := with_tracks (_tracks tl ++ [track]) tl;
     calls := [Configure track; CreateInteraction Surface (ElementOf track)];
     completion := Normal tt |}.
Proof.
  intro Hn. unfold add. rewrite (not_listed _ _ Hn). reflexivity.
Qed.

(** X15.  [createTrack] with an id that names nothing yet returns a new
    track, lists it last and registers it: [getTrackById] with that id
    now answers the track, and what the other ids answer is unchanged. *)
Theorem createTrack_registers (id : string) (tl : t) :
  counter_ahead tl ->
  getTrackById id tl = JSObject.Undefined ->
  let o := createTrack (Some id) tl in
  let track := Created (created tl) in
  completion o = Normal track
  /\ getTrackById id (after o) = JSObject.Own track
  /\ _tracks (after o) = _tracks tl ++ [track]
  /\ (forall id', id' <> id ->
        getTrackById id' (after o) = getTrackById id' tl).
Proof.
  intros Hc Hfree. cbv zeta. unfold createTrack, getTrackById in *.
  cbn [_trackById with_created]. rewrite Hfree.
  rewrite add_new by (apply (new_track_not_listed tl Hc)).
  cbn. repeat split.
  - rewrite JSObjectFacts.get_set, String.eqb_refl. reflexivity.
  - intros id' Hne. rewrite JSObjectFacts.get_set.
    destruct (String.eqb_spec id id'); [congruence|reflexivity].
Qed.

Lemma createTrack_registers_witness :
  completion (createTrack (Some "bass"%string) (after constructor))
  = Normal (Created 0)
  /\ getTrackById "bass" (after (createTrack (Some "bass"%string)
                                   (after constructor)))
     = JSObject.Own (Created 0).
Proof.
  pose proof (createTrack_registers "bass" (after constructor)) as H.
  cbv zeta in H. destruct H as (Hc & Hg & _).
  - intros n [].
  - reflexivity.
  - split; [exact Hc | exact Hg].
Defined.

(** X16.  [createTrack] with an id that already names something throws
    and leaves the timeline as it was: no track is listed, no id
    registered, no interaction created. *)
Theorem createTrack_used_id (id : string) (tl : t) :
  getTrackById id tl <> JSObject.Undefined ->
  let o := createTrack (Some id) tl in
  completion o
  = Throw (Error ("trackId: " ++ quote ++ id ++ quote ++ " is already used"))
  /\ calls o = []
  /\ _tracks (after o) = _tracks tl
  /\ _trackById (after o) = _trackById tl
  /\ _groupedLayers (after o) = _groupedLayers tl.
Proof.
  intro Hused. cbv zeta. unfold createTrack, getTrackById in *.
  cbn [_trackById with_created].
  destruct (JSObject.get (_trackById tl) id); [| |contradiction];
    repeat split.
Qed.

Lemma createTrack_used_id_witness :
  completion
    (createTrack (Some "bass"%string)
       (after (createTrack (Some "bass"%string) (after constructor))))
  = Throw (Error ("trackId: " ++ quote ++ "bass" ++ quote ++ " is already used"))
  /\ _tracks (after (createTrack (Some "bass"%string)
                       (after (createTrack (Some "bass"%string)
                                 (after constructor)))))
     = [Created 0].
Proof.
  pose proof (createTrack_used_id "bass"
                (after (createTrack (Some "bass"%string) (after constructor))))
    as H.
  cbv zeta in H. destruct H as (Hc & _ & Ht & _).
  - discriminate.
  - split; [exact Hc | exact Ht].
Defined.

(** X17.  The ids are looked up in a plain object, so a name every object
    inherits counts as used from the start: [createTrack] with the id
    [toString], [constructor], [valueOf], ... throws "already used" on
    any timeline. *)
Theorem createTrack_inherited_name (id : string) (tl : t) :
  In id JSObject.prototype_keys ->
  completion (createTrack (Some id) tl)
  = Throw (Error ("trackId: " ++ quote ++ id ++ quote ++ " is already used")).
Proof.
  intro Hin. apply JSObjectFacts.inherited_In in Hin.
  unfold createTrack. cbn [_trackById with_created].
  unfold JSObject.get. rewrite Hin.
  destruct (JSObject.own (_trackById tl) id); reflexivity.
Qed.

Lemma createTrack_inherited_name_witness :
  completion (createTrack (Some "toString"%string) (after constructor))
  = Throw (Error ("trackId: " ++ quote ++ "toString" ++ quote
                  ++ " is already used")).
Proof.
  apply (createTrack_inherited_name "toString" (after constructor)).
  vm_compute. tauto.
Defined.

Lemma counter_ahead_add (track : Track) (tl : t) :
  counter_ahead tl ->
  (forall n, track = Created n -> (n < created tl)%nat) ->
  counter_ahead (after (add track tl)).
Proof.
  intros Hc Hnew. unfold add.
  destruct (existsb (Track_eqb track) (_tracks tl)); [exact Hc|].
  intros n Hin. cbn in Hin. apply in_app_or in Hin.
  destruct Hin as [Hin|[Heq|[]]]; [apply Hc, Hin | apply Hnew, Heq].
Qed.

Lemma NoDup_add (track : Track) (tl : t) :
  NoDup (_tracks tl) -> NoDup (_tracks (after (add track tl))).
Proof.
  intro Hnd. unfold add.
  destruct (existsb (Track_eqb track) (_tracks tl)) eqn:He; [exact Hnd|].
  cbn. apply NoDup_app; [exact Hnd | repeat constructor; intros [] |].
  intros x Hin [Heq|[]]. subst x.
  assert (existsb (Track_eqb track) (_tracks tl) = true)
    by (apply listed_iff, Hin).
  congruence.
Qed.

(** X18.  A track is never listed twice: [add], which refuses a track it
    already lists, and [createTrack], whose track is new, keep the list
    of tracks free of repetitions, whether they return or throw. *)
Theorem tracks_listed_once (tl : t) :
  NoDup (_tracks tl) ->
  counter_ahead tl ->
  (forall track, NoDup (_tracks (after (add track tl))))
  /\ (forall trackId,
        NoDup (_tracks (after (createTrack trackId tl)))
        /\ counter_ahead (after (createTrack trackId tl))).
Proof.
  intros Hnd Hc. split.
  - intro track. apply NoDup_add, Hnd.
  - intro trackId.
    assert (Hc' : forall o, counter_ahead (with_trackById o
                                             (with_created (S (created tl)) tl))).
    { intros o n Hin. cbn in *. apply Hc in Hin. lia. }
    assert (Hc1 : counter_ahead (with_created (S (created tl)) tl)).
    { intros n Hin. cbn in *. apply Hc in Hin. lia. }
    unfold createTrack.
    destruct trackId as [id|]; cbn [after].
    + cbn [_trackById with_created].
      destruct (JSObject.get (_trackById tl) id); cbn [after].
      * split; [exact Hnd | exact Hc1].
      * split; [exact Hnd | exact Hc1].
      * split.
        -- apply NoDup_add. exact Hnd.
        -- apply counter_ahead_add; [apply Hc'|].
           intros n [= <-]. cbn. lia.
    + split.
      * apply NoDup_add. exact Hnd.
      * apply counter_ahead_add; [exact Hc1|].
        intros n [= <-]. cbn. lia.
Qed.

Lemma tracks_listed_once_witness :
  NoDup (_tracks (after (add (Created 0)
                           (after (createTrack None (after constructor)))))).
Proof.
  apply (proj1 (tracks_listed_once
                  (after (createTrack None (after constructor)))
                  ltac:(repeat constructor; intros [])
                  ltac:(intros n [H|[]]; injection H as <-; cbn; lia))).
Defined.

(** ** Groups of layers *)

(** X19.  [addLayer] with a track and a group name that is not an
    inherited one puts the layer last in that group, creating the group
    if need be, hands the layer to the track, and leaves the other groups
    alone. *)
Theorem addLayer_appends (layer : Layer) (track : Track) (group : string)
    (tl : t) :
  getLayersByGroup group tl <> JSObject.Inherited ->
  let o := addLayer layer (ATrack track) (Some group) tl in
  let before := match getLayersByGroup group tl with
                | JSObject.Own ls => ls
                | _ => []
                end in
  completion o = Normal tt
  /\ calls o = [TrackAdd track layer]
  /\ getLayersByGroup group (after o) = JSObject.Own (before ++ [layer])
  /\ (forall other, other <> group ->
        getLayersByGroup other (after o) = getLayersByGroup other tl).
Proof.
  intro Hg. cbv zeta. unfold addLayer, getLayersByGroup in *.
  destruct (JSObject.get (_groupedLayers tl) group) as [ls| |] eqn:Hget;
    [|contradiction|].
  - rewrite Hget. cbn. repeat split.
    + rewrite JSObjectFacts.get_set, String.eqb_refl. reflexivity.
    + intros other Hne. rewrite JSObjectFacts.get_set.
      destruct (String.eqb_spec group other); [congruence|reflexivity].
  - rewrite JSObjectFacts.get_set, String.eqb_refl. cbn. repeat split.
    + rewrite JSObjectFacts.get_set, String.eqb_refl. reflexivity.
    + intros other Hne. rewrite !JSObjectFacts.get_set.
      destruct (String.eqb_spec group other); [congruence|reflexivity].
Qed.

Lemma addLayer_appends_witness :
  getLayersByGroup "drums"
    (after (addLayer 8%nat (ATrack (Given 1)) (Some "drums"%string)
              (after (addLayer 7%nat (ATrack (Given 1)) (Some "drums"%string)
                        (after constructor)))))
  = JSObject.Own [7; 8]%nat.
Proof.
  pose proof (addLayer_appends 8%nat (Given 1) "drums"
                (after (addLayer 7%nat (ATrack (Given 1)) (Some "drums"%string)
                          (after constructor)))) as H.
  cbv zeta in H. destruct H as (_ & _ & Hg & _).
  - discriminate.
  - exact Hg.
Defined.

(** X20.  [addLayer] with the id of no track throws before anything is
    done: no track is called and no group is touched. *)
Theorem addLayer_unknown_track (layer : Layer) (id : string)
    (groupId : option string) (tl : t) :
  JSObject.own (_trackById tl) id = None ->
  addLayer layer (ATrackId id) groupId tl
  = {| after := tl; calls := []; completion := Throw (TypeError "add") |}.
Proof.
  intro Hnone. unfold addLayer, getTrackById, JSObject.get. rewrite Hnone.
  destruct (JSObject.inherited id); reflexivity.
Qed.

Lemma addLayer_unknown_track_witness :
  addLayer 7%nat (ATrackId "bass") None (after constructor)
  = {| after := after constructor; calls := [];
       completion := Throw (TypeError "add") |}.
Proof.
  apply (addLayer_unknown_track 7%nat "bass" None (after constructor)).
  reflexivity.
Defined.

(** What one turn of the loop of [removeLayer] makes of a group. *)
Lemma removeLayer_turn_own (layer : Layer) (groups : JSObject.t (list Layer))
    (k k' : string) :
  JSObject.own (removeLayer_turn layer groups k) k'
  = if String.eqb k k' then
      match JSObject.own groups k with
      | Some group =>
          let group := if has_layer group layer then List.tl group else group in
          if (List.length group =? 0)%nat then None else Some group
      | None => None
      end
    else JSObject.own groups k'.
Proof.
  unfold removeLayer_turn.
  destruct (JSObject.own groups k) as [group|] eqn:Hown.
  - cbv zeta.
    destruct (List.length (if has_layer group layer then List.tl group else group)
              =? 0)%nat.
    + rewrite JSObjectFacts.own_delete, JSObjectFacts.own_set.
      destruct (String.eqb k k'); reflexivity.
    + rewrite JSObjectFacts.own_set. reflexivity.
  - destruct (String.eqb_spec k k') as [<-|]; [exact Hown|reflexivity].
Qed.

Lemma removeLayer_loop_own (layer : Layer) (ks : list string) :
  NoDup ks ->
  forall (groups : JSObject.t (list Layer)) (k : string),
    JSObject.own (fold_left (removeLayer_turn layer) ks groups) k
    = if in_dec string_dec k ks then
        match JSObject.own groups k with
        | Some group =>
            let group := if has_layer group layer then List.tl group else group in
            if (List.length group =? 0)%nat then None else Some group
        | None => None
        end
      else JSObject.own groups k.
Proof.
  induction 1 as [|k0 ks Hnotin Hnd IH]; intros groups k; [reflexivity|].
  cbn [fold_left]. rewrite IH, !removeLayer_turn_own.
  destruct (in_dec string_dec k ks) as [Hin|Hnin];
    destruct (in_dec string_dec k (k0 :: ks)) as [Hin'|Hnin'];
    destruct (String.eqb_spec k0 k) as [->|Hne];
    try reflexivity; try contradiction.
  - exfalso. apply Hnin'. right. exact Hin.
  - exfalso. destruct Hin' as [Heq|Hin']; [congruence|contradiction].
  - exfalso. apply Hnin'. left. reflexivity.
Qed.

(** What [removeLayer] makes of each group. *)
Lemma removeLayer_groups (layers_of : Track -> list Layer) (layer : Layer)
    (tl : t) (k : string) :
  JSObject.own (_groupedLayers (after (removeLayer layers_of layer tl))) k
  = match JSObject.own (_groupedLayers tl) k with
    | Some group =>
        let group := if has_layer group layer then List.tl group else group in
        if (List.length group =? 0)%nat then None else Some group
    | None => None
    end.
Proof.
  unfold removeLayer. cbn [after _groupedLayers with_groupedLayers].
  rewrite removeLayer_loop_own by (apply NoDup_nodup).
  destruct (in_dec string_dec k (JSObject.keys (_groupedLayers tl)))
    as [Hin|Hnin]; [reflexivity|].
  rewrite (JSObjectFacts.own_not_key _ _ Hnin). reflexivity.
Qed.

(** X21.  [removeLayer] takes the first layer out of every group that
    holds the given one, whichever place the given one has in the group
    ([splice] is handed the layer where it expects an index): unless the
    layer was first, it is still in the group afterwards. *)
Theorem removeLayer_drops_first_of_group (layers_of : Track -> list Layer)
    (layer first : Layer) (rest : list Layer) (group : string) (tl : t) :
  JSObject.own (_groupedLayers tl) group = Some (first :: rest) ->
  In layer (first :: rest) ->
  JSObject.own (_groupedLayers (after (removeLayer layers_of layer tl))) group
  = match rest with
    | [] => None
    | _ :: _ => Some rest
    end
  /\ (layer <> first -> In layer rest).
Proof.
  intros Hown Hin. rewrite removeLayer_groups, Hown. cbv zeta.
  assert (Hhas : has_layer (first :: rest) layer = true).
  { unfold has_layer. apply existsb_exists. exists layer.
    split; [exact Hin | apply Nat.eqb_refl]. }
  rewrite Hhas. split.
  - destruct rest; reflexivity.
  - intro Hne. destruct Hin as [Heq|Hin]; [congruence|exact Hin].
Qed.

Lemma removeLayer_drops_first_of_group_witness :
  JSObject.own
    (_groupedLayers
       (after (removeLayer (fun _ => []) 8%nat
                 (after (addLayer 8%nat (ATrack (Given 1)) (Some "drums"%string)
                           (after (addLayer 7%nat (ATrack (Given 1))
                                     (Some "drums"%string)
                                     (after constructor))))))))
    "drums"
  = Some [8%nat].
Proof.
  refine (proj1 (removeLayer_drops_first_of_group (fun _ => []) 8%nat 7%nat
                   [8%nat] "drums" _ _ _)).
  - reflexivity.
  - right. left. reflexivity.
Defined.

(** X22.  [removeLayer] leaves no empty group behind and does not touch a
    group that does not hold the layer. *)
Theorem removeLayer_other_groups (layers_of : Track -> list Layer)
    (layer : Layer) (tl : t) (group : string) (ls : list Layer) :
  (JSObject.own (_groupedLayers (after (removeLayer layers_of layer tl))) group
   = Some ls -> ls <> [])
  /\ (JSObject.own (_groupedLayers tl) group = Some ls ->
      ~ In layer ls -> ls <> [] ->
      JSObject.own (_groupedLayers (after (removeLayer layers_of layer tl)))
        group = Some ls).
Proof.
  rewrite removeLayer_groups. split.
  - destruct (JSObject.own (_groupedLayers tl) group) as [g|]; [|discriminate].
    cbv zeta.
    destruct (List.length (if has_layer g layer then List.tl g else g) =? 0)%nat
      eqn:Hlen; [discriminate|].
    intros [= <-] Hnil. rewrite Hnil in Hlen. discriminate.
  - intros -> Hnin Hne. cbv zeta.
    assert (Hhas : has_layer ls layer = false).
    { unfold has_layer. destruct (existsb (Nat.eqb layer) ls) eqn:He; [|reflexivity].
      apply existsb_exists in He. destruct He as (x & Hx & Heq).
      apply Nat.eqb_eq in Heq. subst. contradiction. }
    rewrite Hhas. destruct ls; [contradiction|reflexivity].
Qed.

Lemma removeLayer_other_groups_witness :
  JSObject.own
    (_groupedLayers
       (after (removeLayer (fun _ => []) 9%nat
                 (after (addLayer 7%nat (ATrack (Given 1)) (Some "drums"%string)
                           (after constructor))))))
    "drums"
  = Some [7%nat].
Proof.
  apply (proj2 (removeLayer_other_groups (fun _ => []) 9%nat
                  (after (addLayer 7%nat (ATrack (Given 1)) (Some "drums"%string)
                            (after constructor)))
                  "drums" [7%nat])).
  - reflexivity.
  - intros [H|[]]. discriminate.
  - discriminate.
Defined.

(** X23.  Adding a layer to a group that already holds others and then
    removing it removes the oldest layer of the group and keeps the one
    just added. *)
Theorem addLayer_then_removeLayer (layers_of : Track -> list Layer)
    (layer first : Layer) (rest : list Layer) (track : Track)
    (group : string) (tl : t) :
  JSObject.own (_groupedLayers tl) group = Some (first :: rest) ->
  let added := after (addLayer layer (ATrack track) (Some group) tl) in
  JSObject.own (_groupedLayers (after (removeLayer layers_of layer added))) group
  = Some (rest ++ [layer]).
Proof.
  intro Hown. cbv zeta. rewrite removeLayer_groups.
  unfold addLayer, JSObject.get. rewrite Hown. cbn [after _groupedLayers
    with_groupedLayers]. rewrite Hown. cbn [after _groupedLayers
    with_groupedLayers].
  rewrite JSObjectFacts.own_set, String.eqb_refl. cbv zeta.
  assert (Hhas : has_layer ((first :: rest) ++ [layer]) layer = true).
  { unfold has_layer. apply existsb_exists. exists layer.
    split; [apply in_or_app; right; left; reflexivity | apply Nat.eqb_refl]. }
  rewrite Hhas. simpl List.tl.
  destruct (rest ++ [layer]) eqn:Hnil; [|reflexivity].
  destruct rest; discriminate.
Qed.

Lemma addLayer_then_removeLayer_witness :
  JSObject.own
    (_groupedLayers
       (after (removeLayer (fun _ => []) 8%nat
                 (after (addLayer 8%nat (ATrack (Given 1)) (Some "drums"%string)
                           (after (addLayer 7%nat (ATrack (Given 1))
                                     (Some "drums"%string)
                                     (after constructor))))))))
    "drums"
  = Some ([] ++ [8%nat]).
Proof.
  apply (addLayer_then_removeLayer (fun _ => []) 8%nat 7%nat [] (Given 1)
           "drums"
           (after (addLayer 7%nat (ATrack (Given 1)) (Some "drums"%string)
                     (after constructor)))).
  reflexivity.
Defined.

End TimelineFacts.

(** * Properties of [ContextEditionState] *)

Module ContextEditionFacts.
Import ContextEditionState.

Section Gestures.

Variable layers : list Layer.
Variable hasElement : Layer -> Element -> bool.

Lemma handleEvent_not_mousedown (e : MouseEvent) (st : t) :
  type e <> "mousedown"%string ->
  mouseDown st = false ->
  handleEvent layers hasElement e st = (fst (handleEvent layers hasElement e st), [])
  /\ mouseDown (fst (handleEvent layers hasElement e st)) = false.
Proof.
  intros Ht Hm. unfold handleEvent.
  destruct (String.eqb_spec (type e) "mousedown"); [contradiction|].
  destruct (String.eqb (type e) "mousemove").
  - unfold onMouseMove. rewrite Hm. split; [reflexivity | exact Hm].
  - destruct (String.eqb (type e) "mouseup"); split; try reflexivity; exact Hm.
Qed.

(** X24.  Nothing is edited without a mouse button down: from a state
    with no button down (the initial one, or any state after a mouseup),
    events other than a mousedown cause no call at all. *)
Theorem no_edit_without_mousedown (es : list MouseEvent) (st : t) :
  mouseDown st = false ->
  Forall (fun e => type e <> "mousedown"%string) es ->
  snd (handleEvents layers hasElement es st) = []
  /\ mouseDown (fst (handleEvents layers hasElement es st)) = false.
Proof.
  intros Hm Hall. revert st Hm.
  induction Hall as [|e es He _ IH]; intros st Hm; [split; [reflexivity|exact Hm]|].
  destruct (handleEvent_not_mousedown e st He Hm) as [Hcalls Hm'].
  cbn [handleEvents]. rewrite Hcalls.
  specialize (IH _ Hm').
  destruct (handleEvents layers hasElement es
              (fst (handleEvent layers hasElement e st))) as [st2 calls2].
  exact IH.
Qed.

Lemma first_layer_with_app (before rest : list Layer) (layer : Layer)
    (el : Element) :
  (forall l, In l before -> hasElement l el = false) ->
  hasElement layer el = true ->
  first_layer_with hasElement (before ++ layer :: rest) el = Some layer.
Proof.
  intros Hbefore Hhit. induction before as [|l before IH]; simpl.
  - rewrite Hhit. reflexivity.
  - rewrite (Hbefore l (or_introl eq_refl)). apply IH.
    intros l' Hl'. apply Hbefore. right. exact Hl'.
Qed.

Lemma first_layer_with_none (ls : list Layer) (el : Element) :
  (forall l, In l ls -> hasElement l el = false) ->
  first_layer_with hasElement ls el = None.
Proof.
  intro Hnone. induction ls as [|l ls IH]; simpl; [reflexivity|].
  rewrite (Hnone l (or_introl eq_refl)). apply IH.
  intros l' Hl'. apply Hnone. right. exact Hl'.
Qed.

(** X25.  Every edit is followed by the update of the edited layer:
    whatever the events and the state they start from, the calls made
    come in pairs, an edit or a stretch of a layer and then the update
    of that same layer. *)
Theorem edits_are_followed_by_updates (es : list MouseEvent) (st : t) :
  edits_then_updates (snd (handleEvents layers hasElement es st)) = true.
Proof.
  revert st. induction es as [|e es IH]; intro st; [reflexivity|].
  cbn [handleEvents].
  destruct (handleEvent layers hasElement e st) as [st1 calls1] eqn:He.
  specialize (IH st1).
  destruct (handleEvents layers hasElement es st1) as [st2 calls2].
  cbn [snd] in *.
  unfold handleEvent in He.
  destruct (String.eqb (type e) "mousedown");
    [injection He as <- <-; exact IH|].
  destruct (String.eqb (type e) "mousemove").
  - unfold onMouseMove in He.
    destruct (mouseDown st); [|injection He as <- <-; exact IH].
    destruct (currentLayer st) as [layer|]; [|injection He as <- <-; exact IH].
    injection He as <- <-.
    destruct (shiftKey e); simpl; rewrite Nat.eqb_refl; exact IH.
  - destruct (String.eqb (type e) "mouseup"); injection He as <- <-; exact IH.
Qed.

(** X26.  A mousedown arms the first layer, in the order of the layers,
    that holds the element under the mouse; layers after it that hold the
    element too are not considered. *)
Theorem mousedown_takes_first_layer (before rest : list Layer) (layer : Layer)
    (e : MouseEvent) (st : t) :
  layers = before ++ layer :: rest ->
  (forall l, In l before -> hasElement l (target e) = false) ->
  hasElement layer (target e) = true ->
  type e = "mousedown"%string ->
  handleEvent layers hasElement e st
  = ({| mouseDown := true; currentTarget := Some (target e);
        currentLayer := Some layer |}, []).
Proof.
  intros Hl Hbefore Hhit Ht. unfold handleEvent, onMouseDown.
  rewrite Ht, Hl. cbn [String.eqb].
  rewrite (first_layer_with_app before rest layer (target e) Hbefore Hhit).
  reflexivity.
Qed.

(** X27.  A mousedown on an element that no layer holds does not disarm
    the layer of an earlier mousedown: if no mouseup came in between, the
    next move edits that earlier layer, with the new element as target. *)
Theorem mousedown_on_no_layer_keeps_previous (down move : MouseEvent)
    (layer : Layer) (st : t) :
  (forall l, In l layers -> hasElement l (target down) = false) ->
  type down = "mousedown"%string ->
  type move = "mousemove"%string ->
  currentLayer st = Some layer ->
  snd (handleEvents layers hasElement [down; move] st)
  = move_calls layer (target down) move.
Proof.
  intros Hnone Hd Hm Hlayer.
  cbn [handleEvents]. unfold handleEvent, onMouseDown, onMouseMove.
  rewrite Hd, Hm. cbn [String.eqb].
  rewrite (first_layer_with_none layers (target down) Hnone), Hlayer.
  reflexivity.
Qed.

Lemma handleEvent_mousedown (e : MouseEvent) (st : t) :
  type e = "mousedown"%string ->
  handleEvent layers hasElement e st = onMouseDown layers hasElement e st.
Proof. intro Ht. unfold handleEvent. rewrite Ht. reflexivity. Qed.

Lemma handleEvent_mousemove (e : MouseEvent) (st : t) :
  type e = "mousemove"%string ->
  handleEvent layers hasElement e st = onMouseMove e st.
Proof. intro Ht. unfold handleEvent. rewrite Ht. reflexivity. Qed.

Lemma handleEvent_mouseup (e : MouseEvent) (st : t) :
  type e = "mouseup"%string ->
  handleEvent layers hasElement e st = onMouseUp e st.
Proof. intro Ht. unfold handleEvent. rewrite Ht. reflexivity. Qed.

Lemma moves_while_armed (layer : Layer) (el : Element)
    (moves tail : list MouseEvent) :
  Forall (fun e => type e = "mousemove"%string) moves ->
  let armed := {| mouseDown := true; currentTarget := Some el;
                  currentLayer := Some layer |} in
  handleEvents layers hasElement (moves ++ tail) armed
  = (fst (handleEvents layers hasElement tail armed),
     flat_map (move_calls layer el) moves
     ++ snd (handleEvents layers hasElement tail armed)).
Proof.
  cbv zeta. induction 1 as [|e moves He _ IH].
  - simpl. destruct (handleEvents layers hasElement tail _); reflexivity.
  - cbn [app handleEvents flat_map]. rewrite (handleEvent_mousemove e _ He).
    unfold onMouseMove. cbn [mouseDown currentLayer currentTarget].
    rewrite IH. reflexivity.
Qed.

(** X28.  A whole gesture: a mousedown on an element of a layer, any
    number of moves and a mouseup make one edit (or stretch, with shift)
    and one update of that layer per move, all with the element of the
    mousedown as target, and leave the state disarmed. *)
Theorem gesture_edits_its_layer (down up : MouseEvent)
    (moves : list MouseEvent) (layer : Layer) (st : t) :
  type down = "mousedown"%string ->
  first_layer_with hasElement layers (target down) = Some layer ->
  Forall (fun e => type e = "mousemove"%string) moves ->
  type up = "mouseup"%string ->
  handleEvents layers hasElement (down :: moves ++ [up]) st
  = (initial, flat_map (move_calls layer (target down)) moves).
Proof.
  intros Hd Hhit Hmoves Hu.
  cbn [handleEvents]. rewrite (handleEvent_mousedown down st Hd).
  unfold onMouseDown. rewrite Hhit.
  rewrite (moves_while_armed layer (target down) moves [up] Hmoves).
  cbn [handleEvents]. rewrite (handleEvent_mouseup up _ Hu).
  unfold onMouseUp. cbn [fst snd]. rewrite !app_nil_r. reflexivity.
Qed.

End Gestures.

(** Two layers; the element 5 belongs to both, the element 9 to none. *)
Lemma no_edit_without_mousedown_witness :
  snd (handleEvents [1; 2]%nat (fun _ el => Nat.eqb el 5)
         [ {| type := "mousemove"; target := 5%nat; dx := 3; dy := 0;
              shiftKey := false |};
           {| type := "keydown"; target := 5%nat; dx := 0; dy := 0;
              shiftKey := false |} ]
         initial)
  = [].
Proof.
  apply (proj1 (no_edit_without_mousedown [1; 2]%nat (fun _ el => Nat.eqb el 5)
                  _ initial eq_refl
                  ltac:(repeat constructor; discriminate))).
Defined.

Lemma mousedown_takes_first_layer_witness :
  handleEvent [1; 2]%nat (fun _ el => Nat.eqb el 5)
    {| type := "mousedown"; target := 5%nat; dx := 0; dy := 0;
       shiftKey := false |}
    initial
  = ({| mouseDown := true; currentTarget := Some 5%nat;
        currentLayer := Some 1%nat |}, []).
Proof.
  apply (mousedown_takes_first_layer [1; 2]%nat (fun _ el => Nat.eqb el 5)
           [] [2%nat] 1%nat
           {| type := "mousedown"; target := 5%nat; dx := 0; dy := 0;
              shiftKey := false |} initial).
  - reflexivity.
  - intros l [].
  - reflexivity.
  - reflexivity.
Defined.

Lemma mousedown_on_no_layer_keeps_previous_witness :
  snd (handleEvents [1; 2]%nat (fun _ el => Nat.eqb el 5)
         [ {| type := "mousedown"; target := 9%nat; dx := 0; dy := 0;
              shiftKey := false |};
           {| type := "mousemove"; target := 9%nat; dx := 3; dy := 0;
              shiftKey := false |} ]
         {| mouseDown := true; currentTarget := Some 5%nat;
            currentLayer := Some 1%nat |})
  = [EditContext 1%nat 3 0 (Some 9%nat); TracksUpdate 1%nat].
Proof.
  apply (mousedown_on_no_layer_keeps_previous [1; 2]%nat
           (fun _ el => Nat.eqb el 5)
           {| type := "mousedown"; target := 9%nat; dx := 0; dy := 0;
              shiftKey := false |}
           {| type := "mousemove"; target := 9%nat; dx := 3; dy := 0;
              shiftKey := false |}
           1%nat
           {| mouseDown := true; currentTarget := Some 5%nat;
              currentLayer := Some 1%nat |}).
  - intros l _. reflexivity.
  - reflexivity.
  - reflexivity.
  - reflexivity.
Defined.

Lemma gesture_edits_its_layer_witness :
  handleEvents [1; 2]%nat (fun _ el => Nat.eqb el 5)
    ({| type := "mousedown"; target := 5%nat; dx := 0; dy := 0;
        shiftKey := false |}
     :: [ {| type := "mousemove"; target := 5%nat; dx := 3; dy := 0;
             shiftKey := true |} ]
     ++ [ {| type := "mouseup"; target := 5%nat; dx := 0; dy := 0;
             shiftKey := false |} ])
    initial
  = (initial,
     flat_map (move_calls 1%nat 5%nat)
       [ {| type := "mousemove"; target := 5%nat; dx := 3; dy := 0;
            shiftKey := true |} ]).
Proof.
  apply (gesture_edits_its_layer [1; 2]%nat (fun _ el => Nat.eqb el 5)).
  - reflexivity.
  - reflexivity.
  - repeat constructor.
  - reflexivity.
Defined.

End ContextEditionFacts.
